(** * wallet-app: the in-memory wallet service of [internal/wallet]

    A shallow embedding of [internal/wallet/types.go] and
    [internal/wallet/wallet.go], and the properties of the ledger proved
    over it: balances against the transaction log, conservation under
    transfer, the error paths, lock ordering, transaction history.  Calls
    run one after the other; what a call does to the mutexes is kept as a
    trace.  [GetBalance] (a conversion of [GetBalanceDecimal] to [float64])
    and [GetAllUsers] are left out. *)

From Stdlib Require Import ZArith QArith Qpower Lqa String Ascii List Lia.
From stdpp Require Import base gmap strings list pretty.

Local Open Scope Z_scope.

(** * Fixed-point decimals *)

(** Modelled from the spec: the repository imports
    [github.com/shopspring/decimal] (v1.3.1 according to its README); the
    library is not part of the repository.  The spec assumes of it "exact
    addition, subtraction, comparison, and zero-test on fixed-point values,
    with no silent rounding".  A decimal is an integer coefficient [value]
    and a power-of-ten exponent [exp], standing for [value * 10^exp]; the
    operations bring both operands to the smaller exponent first, which only
    multiplies a coefficient by a power of ten. *)
Module decimal.

Record Decimal : Type := New { value : Z; exp : Z }.

(** [decimal.Zero] is [New(0, 1)]. *)
Definition Zero : Decimal := New 0 1.

(** [d.rescale(e)]: the same decimal with exponent [e]; exact when
    [e <= exp d], truncating otherwise. *)
Definition rescale (d : Decimal) (e : Z) : Decimal :=
  if exp d =? e then d
  else
    let diff := Z.abs (e - exp d) in
    let expScale := 10 ^ diff in
    if exp d <? e then New (Z.quot (value d) expScale) e
    else New (value d * expScale) e.

Definition RescalePair (d1 d2 : Decimal) : Decimal * Decimal :=
  if exp d1 =? exp d2 then (d1, d2)
  else
    let baseScale := Z.min (exp d1) (exp d2) in
    if negb (baseScale =? exp d1) then (rescale d1 baseScale, d2)
    else (d1, rescale d2 baseScale).

Definition Add (d d2 : Decimal) : Decimal :=
  let '(rd, rd2) := RescalePair d d2 in
  New (value rd + value rd2) (exp rd).

Definition Sub (d d2 : Decimal) : Decimal :=
  let '(rd, rd2) := RescalePair d d2 in
  New (value rd - value rd2) (exp rd).

(** The [int] a [Cmp] method returns: -1, 0 or +1. *)
Definition cmpInt (c : comparison) : Z :=
  match c with Lt => -1 | Eq => 0 | Gt => 1 end.

(** [big.Int.Cmp]. *)
Definition bigCmp (x y : Z) : Z := cmpInt (x ?= y).

Definition Cmp (d d2 : Decimal) : Z :=
  if exp d =? exp d2 then bigCmp (value d) (value d2)
  else
    let '(rd, rd2) := RescalePair d d2 in
    bigCmp (value rd) (value rd2).

Definition Equal (d d2 : Decimal) : bool := Cmp d d2 =? 0.

Definition LessThan (d d2 : Decimal) : bool := Cmp d d2 =? -1.

Definition LessThanOrEqual (d d2 : Decimal) : bool :=
  let cmp := Cmp d d2 in (cmp =? -1) || (cmp =? 0).

(** The arguments of the [float64] entry points, seen through
    [decimal.NewFromFloat]: the conversion panics on NaN and on the
    infinities, and turns every other float into a decimal (0 into
    [New(0, 0)]).  A finite float is identified with the decimal it is
    converted to; how the digits are chosen plays no part below.  Not every
    decimal is the conversion of a float ([NewFromFloat] yields at most 17
    significant digits): [Finite d] ranges over more amounts than a caller
    can pass, so what is said of an amount is said of every [d], and no
    amount is built from the state. *)
Inductive float64 : Type :=
| NaN
| Inf (negative : bool)
| Finite (d : Decimal).

(** [None] stands for the panic. *)
Definition NewFromFloat (f : float64) : option Decimal :=
  match f with
  | Finite d => Some d
  | NaN | Inf _ => None
  end.

(** The number a decimal stands for. *)
Definition dval (d : Decimal) : Q :=
  (inject_Z (value d) * (10 # 1) ^ exp d)%Q.

End decimal.

Import decimal.

(** * Data model ([internal/wallet/types.go]) *)

(** The error values of the package. *)
Inductive error : Type :=
| ErrUserNotFound
| ErrInsufficientBalance
| ErrInvalidAmount
| ErrSameUserTransfer
| ErrUserAlreadyExists.

(** [User]; its field [ID] is [User_ID] here, [ID] being the field of
    [Transaction]. *)
Record User : Type := { User_ID : string; Name : string; Email : string }.

(** A wallet; its [mu] is the mutex [WalletMu] of its user id below. *)
Record Wallet : Type := { UserID : string; Balance : Decimal }.

(** [type TransactionType string] and its three constants. *)
Definition TransactionType : Type := string.
Definition TransactionDeposit : TransactionType := "deposit"%string.
Definition TransactionWithdraw : TransactionType := "withdraw"%string.
Definition TransactionTransfer : TransactionType := "transfer"%string.

(** [Transaction]; its field [Type] is [Type_] here. *)
Record Transaction : Type := {
  ID : string;
  FromUserID : string;
  ToUserID : string;
  Amount : Decimal;
  Type_ : TransactionType;
  Description : string;
  Timestamp : Z
}.

(** * The service ([internal/wallet/wallet.go]) *)

(** The service state.  The maps hold [*User] and [*Wallet]; every such
    pointer is created by [CreateUser], stored under one key and never
    replaced, so a wallet is addressed by its key and a write through the
    pointer is an update of the entry.  [userLocks] is the [sync.Map] of the
    lock manager, from user id to the address of that user's mutex. *)
Record WalletService : Type := {
  users : gmap string User;
  wallets : gmap string Wallet;
  transactions : list Transaction;
  userLocks : gmap string nat
}.

(** The mutexes of the program: [ws.mu], the per-user mutexes handed out by
    the lock manager (by address), and [wallet.mu] of each wallet. *)
Inductive mutex : Type :=
| ServiceMu
| UserLock (addr : nat)
| WalletMu (userID : string).

(** What an operation does, in program order: lock operations, writes of a
    wallet's balance, appends to the log. *)
Inductive event : Type :=
| EvLock (m : mutex)
| EvUnlock (m : mutex)
| EvRLock (m : mutex)
| EvRUnlock (m : mutex)
| EvStoreBalance (userID : string) (d : Decimal)
| EvAppend (tx : Transaction).

(** The two readings of [time.Now()] an operation may take: [UnixNano()] in
    [generateTransactionID] and [Unix()] for the timestamp, both [int64]. *)
Record Clock : Type := { UnixNano : Z; Unix : Z }.

(** Operations read the clock, update the service and leave a trace. *)
Definition M (A : Type) : Type :=
  Clock -> WalletService -> A * WalletService * list event.

#[global] Instance M_ret : MRet M := λ A a _ ws, (a, ws, []).

#[global] Instance M_bind : MBind M := λ A B f m clk ws,
  let '(a, ws1, t1) := m clk ws in
  let '(b, ws2, t2) := f a clk ws1 in
  (b, ws2, t1 ++ t2).

Definition emit (e : event) : M unit := λ _ ws, (tt, ws, [e]).
Definition gets {A : Type} (f : WalletService -> A) : M A :=
  λ _ ws, (f ws, ws, []).
Definition modify (f : WalletService -> WalletService) : M unit :=
  λ _ ws, (tt, f ws, []).

Definition Lock (m : mutex) : M unit := emit (EvLock m).
Definition Unlock (m : mutex) : M unit := emit (EvUnlock m).
Definition RLock (m : mutex) : M unit := emit (EvRLock m).
Definition RUnlock (m : mutex) : M unit := emit (EvRUnlock m).

(** The three components of a run. *)
Definition retval {A : Type} (r : A * WalletService * list event) : A := r.1.1.
Definition final {A : Type} (r : A * WalletService * list event)
  : WalletService := r.1.2.
Definition trace {A : Type} (r : A * WalletService * list event)
  : list event := r.2.

(** [wallet.Balance], read through the pointer. *)
Definition loadBalance (userID : string) : M Decimal :=
  gets (λ ws, match wallets ws !! userID with
              | Some w => Balance w
              | None => Zero
              end).

(** [wallet.Balance = d], written through the pointer. *)
Definition storeBalance (userID : string) (d : Decimal) : M unit :=
  modify (λ ws, {| users := users ws;
                   wallets := alter (λ w, {| UserID := UserID w;
                                             Balance := d |})
                                    userID (wallets ws);
                   transactions := transactions ws;
                   userLocks := userLocks ws |}) ;;
  emit (EvStoreBalance userID d).

(** [getLock]: [LoadOrStore] on the lock table.  A mutex created for a new
    id gets the next free address; the table never loses an entry. *)
Definition getLock (userID : string) : M nat := λ _ ws,
  match userLocks ws !! userID with
  | Some lock => (lock, ws, [])
  | None =>
      let lock := size (userLocks ws) in
      (lock,
       {| users := users ws;
          wallets := wallets ws;
          transactions := transactions ws;
          userLocks := <[userID := lock]> (userLocks ws) |},
       [])
  end.

Definition NewWalletService : WalletService :=
  {| users := ∅; wallets := ∅; transactions := []; userLocks := ∅ |}.

(** [recordTransaction]. *)
Definition recordTransaction (tx : Transaction) : M unit :=
  Lock ServiceMu ;;
  modify (λ ws, {| users := users ws;
                   wallets := wallets ws;
                   transactions := transactions ws ++ [tx];
                   userLocks := userLocks ws |}) ;;
  emit (EvAppend tx) ;;
  Unlock ServiceMu.

(** [generateTransactionID]: [fmt.Sprintf("tx_%d", time.Now().UnixNano())]. *)
Definition generateTransactionID : M string :=
  λ clk ws, (("tx_" +:+ pretty (UnixNano clk))%string, ws, []).

(** [time.Now().Unix()]. *)
Definition timeNowUnix : M Z := λ clk ws, (Unix clk, ws, []).

(** [getOrderedLocks]; [<] on Go strings is the bytewise lexicographic
    order. *)
Definition getOrderedLocks (userID1 userID2 : string) : M (nat * nat) :=
  lock1 ← getLock userID1;
  lock2 ← getLock userID2;
  if String.ltb userID1 userID2 then mret (lock1, lock2)
  else mret (lock2, lock1).

(** [CreateUser]; [None] is the [nil] error.  The deferred unlock is written
    at each return. *)
Definition CreateUser (userID name email : string) : M (option error) :=
  Lock ServiceMu ;;
  existing ← gets (λ ws, users ws !! userID);
  match existing with
  | Some _ => Unlock ServiceMu ;; mret (Some ErrUserAlreadyExists)
  | None =>
      let user := {| User_ID := userID; Name := name; Email := email |} in
      (* decimal.NewFromFloat(0.0) is New(0, 0) *)
      let wallet := {| UserID := userID; Balance := New 0 0 |} in
      modify (λ ws, {| users := <[userID := user]> (users ws);
                       wallets := <[userID := wallet]> (wallets ws);
                       transactions := transactions ws;
                       userLocks := userLocks ws |}) ;;
      Unlock ServiceMu ;;
      mret None
  end.

(** How a call of a [float64] entry point ends: it returns an error value
    ([None] for [nil]) or panics in [decimal.NewFromFloat]. *)
Inductive outcome : Type :=
| Returns (err : option error)
| Panics.

(** [DepositDecimal].  The deferred [userLock.Unlock()] is written at each
    return after the lock is taken. *)
Definition DepositDecimal (userID : string) (amount : Decimal)
    (description : string) : M (option error) :=
  if LessThanOrEqual amount Zero then mret (Some ErrInvalidAmount)
  else
    userLock ← getLock userID;
    Lock (UserLock userLock) ;;
    RLock ServiceMu ;;
    wallet ← gets (λ ws, wallets ws !! userID);
    RUnlock ServiceMu ;;
    match wallet with
    | None => Unlock (UserLock userLock) ;; mret (Some ErrUserNotFound)
    | Some _ =>
        Lock (WalletMu userID) ;;
        balance ← loadBalance userID;
        storeBalance userID (Add balance amount) ;;
        Unlock (WalletMu userID) ;;
        id ← generateTransactionID;
        now ← timeNowUnix;
        recordTransaction {| ID := id;
                             FromUserID := userID;
                             ToUserID := userID;
                             Amount := amount;
                             Type_ := TransactionDeposit;
                             Description := description;
                             Timestamp := now |} ;;
        Unlock (UserLock userLock) ;;
        mret None
    end.

(** [Deposit]: after [decimal.NewFromFloat(amount)] its body is, statement
    for statement, that of [DepositDecimal] on [decimalAmount]. *)
Definition Deposit (userID : string) (amount : float64)
    (description : string) : M outcome :=
  match NewFromFloat amount with
  | None => mret Panics
  | Some decimalAmount =>
      err ← DepositDecimal userID decimalAmount description;
      mret (Returns err)
  end.

(** [Withdraw]; deferred unlocks run last-deferred-first at each return. *)
Definition Withdraw (userID : string) (amount : float64)
    (description : string) : M outcome :=
  match NewFromFloat amount with
  | None => mret Panics
  | Some decimalAmount =>
      if LessThanOrEqual decimalAmount Zero
      then mret (Returns (Some ErrInvalidAmount))
      else
        userLock ← getLock userID;
        Lock (UserLock userLock) ;;
        RLock ServiceMu ;;
        wallet ← gets (λ ws, wallets ws !! userID);
        RUnlock ServiceMu ;;
        match wallet with
        | None =>
            Unlock (UserLock userLock) ;;
            mret (Returns (Some ErrUserNotFound))
        | Some _ =>
            Lock (WalletMu userID) ;;
            balance ← loadBalance userID;
            if LessThan balance decimalAmount
            then
              Unlock (WalletMu userID) ;;
              Unlock (UserLock userLock) ;;
              mret (Returns (Some ErrInsufficientBalance))
            else
              storeBalance userID (Sub balance decimalAmount) ;;
              id ← generateTransactionID;
              now ← timeNowUnix;
              recordTransaction {| ID := id;
                                   FromUserID := userID;
                                   ToUserID := userID;
                                   Amount := decimalAmount;
                                   Type_ := TransactionWithdraw;
                                   Description := description;
                                   Timestamp := now |} ;;
              Unlock (WalletMu userID) ;;
              Unlock (UserLock userLock) ;;
              mret (Returns None)
        end
  end.

(** [Transfer]. *)
Definition Transfer (fromUserID toUserID : string) (amount : float64)
    (description : string) : M outcome :=
  match NewFromFloat amount with
  | None => mret Panics
  | Some decimalAmount =>
      if LessThanOrEqual decimalAmount Zero
      then mret (Returns (Some ErrInvalidAmount))
      else if String.eqb fromUserID toUserID
      then mret (Returns (Some ErrSameUserTransfer))
      else
        RLock ServiceMu ;;
        fromWallet ← gets (λ ws, wallets ws !! fromUserID);
        toWallet ← gets (λ ws, wallets ws !! toUserID);
        RUnlock ServiceMu ;;
        match fromWallet, toWallet with
        | Some _, Some _ =>
            '(firstLock, secondLock) ← getOrderedLocks fromUserID toUserID;
            Lock (UserLock firstLock) ;;
            Lock (UserLock secondLock) ;;
            Lock (WalletMu fromUserID) ;;
            fromBalance ← loadBalance fromUserID;
            if LessThan fromBalance decimalAmount
            then
              Unlock (WalletMu fromUserID) ;;
              Unlock (UserLock secondLock) ;;
              Unlock (UserLock firstLock) ;;
              mret (Returns (Some ErrInsufficientBalance))
            else
              storeBalance fromUserID (Sub fromBalance decimalAmount) ;;
              Unlock (WalletMu fromUserID) ;;
              Lock (WalletMu toUserID) ;;
              toBalance ← loadBalance toUserID;
              storeBalance toUserID (Add toBalance decimalAmount) ;;
              Unlock (WalletMu toUserID) ;;
              id ← generateTransactionID;
              now ← timeNowUnix;
              recordTransaction {| ID := id;
                                   FromUserID := fromUserID;
                                   ToUserID := toUserID;
                                   Amount := decimalAmount;
                                   Type_ := TransactionTransfer;
                                   Description := description;
                                   Timestamp := now |} ;;
              Unlock (UserLock secondLock) ;;
              Unlock (UserLock firstLock) ;;
              mret (Returns None)
        | _, _ => mret (Returns (Some ErrUserNotFound))
        end
  end.

(** [GetBalanceDecimal]: the balance and the error. *)
Definition GetBalanceDecimal (userID : string) : M (Decimal * option error) :=
  RLock ServiceMu ;;
  wallet ← gets (λ ws, wallets ws !! userID);
  match wallet with
  | None => RUnlock ServiceMu ;; mret (Zero, Some ErrUserNotFound)
  | Some _ =>
      RLock (WalletMu userID) ;;
      balance ← loadBalance userID;
      RUnlock (WalletMu userID) ;;
      RUnlock ServiceMu ;;
      mret (balance, None)
  end.

(** The loop of [GetTransactionHistory] over [ws.transactions]. *)
Definition collectHistory (userID : string) (txs : list Transaction)
  : list Transaction :=
  fold_left
    (λ userTransactions tx,
       if String.eqb (FromUserID tx) userID || String.eqb (ToUserID tx) userID
       then userTransactions ++ [tx]
       else userTransactions)
    txs [].

(** [GetTransactionHistory]; the [nil] slice is the empty list. *)
Definition GetTransactionHistory (userID : string)
  : M (list Transaction * option error) :=
  RLock ServiceMu ;;
  user ← gets (λ ws, users ws !! userID);
  match user with
  | None => RUnlock ServiceMu ;; mret ([], Some ErrUserNotFound)
  | Some _ =>
      txs ← gets transactions;
      RUnlock ServiceMu ;;
      mret (collectHistory userID txs, None)
  end.

(** * Runs of the service *)

(** A call of one of the state-changing entry points. *)
Inductive call : Type :=
| CallCreateUser (userID name email : string)
| CallDeposit (userID : string) (amount : float64) (description : string)
| CallDepositDecimal (userID : string) (amount : Decimal)
    (description : string)
| CallWithdraw (userID : string) (amount : float64) (description : string)
| CallTransfer (fromUserID toUserID : string) (amount : float64)
    (description : string).

Definition exec (c : call) : M outcome :=
  match c with
  | CallCreateUser userID name email =>
      err ← CreateUser userID name email; mret (Returns err)
  | CallDeposit userID amount description => Deposit userID amount description
  | CallDepositDecimal userID amount description =>
      err ← DepositDecimal userID amount description; mret (Returns err)
  | CallWithdraw userID amount description =>
      Withdraw userID amount description
  | CallTransfer fromUserID toUserID amount description =>
      Transfer fromUserID toUserID amount description
  end.

(** The state after a list of calls. *)
Fixpoint run (cs : list (Clock * call)) (ws : WalletService) : WalletService :=
  match cs with
  | [] => ws
  | (clk, c) :: cs' => run cs' (final (exec c clk ws))
  end.

(** The states a service goes through: [NewWalletService], then one call
    after the other, each with its own clock readings. *)
Definition reachable (ws : WalletService) : Prop :=
  exists cs, ws = run cs NewWalletService.

(** The balance [GetBalanceDecimal] reports for an id (the call does not
    read the clock). *)
Definition balance (ws : WalletService) (userID : string) : Decimal :=
  (retval (GetBalanceDecimal userID {| UnixNano := 0; Unix := 0 |} ws)).1.

(** * Definitions for the statements *)

(** A wallet with its balance replaced. *)
Definition setBalance (w : Wallet) (d : Decimal) : Wallet :=
  {| UserID := UserID w; Balance := d |}.

(** The effect of a call on users, wallets and log, as a relation between
    the state before and the state after. *)
Inductive transition (ws ws' : WalletService) : Prop :=
| tr_none :
    users ws' = users ws ->
    wallets ws' = wallets ws ->
    transactions ws' = transactions ws ->
    transition ws ws'
| tr_create (userID name email : string) :
    users ws !! userID = None ->
    users ws' = <[userID := {| User_ID := userID; Name := name;
                               Email := email |}]> (users ws) ->
    wallets ws' = <[userID := {| UserID := userID; Balance := New 0 0 |}]>
                    (wallets ws) ->
    transactions ws' = transactions ws ->
    transition ws ws'
| tr_deposit (userID : string) (w : Wallet) (tx : Transaction) :
    wallets ws !! userID = Some w ->
    LessThanOrEqual (Amount tx) Zero = false ->
    FromUserID tx = userID -> ToUserID tx = userID ->
    Type_ tx = TransactionDeposit ->
    users ws' = users ws ->
    wallets ws' = <[userID := setBalance w (Add (Balance w) (Amount tx))]>
                    (wallets ws) ->
    transactions ws' = (transactions ws ++ [tx])%list ->
    transition ws ws'
| tr_withdraw (userID : string) (w : Wallet) (tx : Transaction) :
    wallets ws !! userID = Some w ->
    LessThan (Balance w) (Amount tx) = false ->
    FromUserID tx = userID -> ToUserID tx = userID ->
    Type_ tx = TransactionWithdraw ->
    users ws' = users ws ->
    wallets ws' = <[userID := setBalance w (Sub (Balance w) (Amount tx))]>
                    (wallets ws) ->
    transactions ws' = (transactions ws ++ [tx])%list ->
    transition ws ws'
| tr_transfer (fromUserID toUserID : string) (wf wt : Wallet)
    (tx : Transaction) :
    fromUserID <> toUserID ->
    wallets ws !! fromUserID = Some wf ->
    wallets ws !! toUserID = Some wt ->
    LessThanOrEqual (Amount tx) Zero = false ->
    LessThan (Balance wf) (Amount tx) = false ->
    FromUserID tx = fromUserID -> ToUserID tx = toUserID ->
    Type_ tx = TransactionTransfer ->
    users ws' = users ws ->
    wallets ws' =
      <[toUserID := setBalance wt (Add (Balance wt) (Amount tx))]>
        (<[fromUserID := setBalance wf (Sub (Balance wf) (Amount tx))]>
           (wallets ws)) ->
    transactions ws' = (transactions ws ++ [tx])%list ->
    transition ws ws'.

(** The sum of the amounts of a list of transactions. *)
Fixpoint sumAmounts (txs : list Transaction) : Q :=
  match txs with
  | [] => 0%Q
  | tx :: rest => (dval (Amount tx) + sumAmounts rest)%Q
  end.

Definition sumWhere (P : Transaction -> bool) (txs : list Transaction) : Q :=
  sumAmounts (List.filter P txs).

Definition ofType (t : TransactionType) (tx : Transaction) : bool :=
  String.eqb (Type_ tx) t.

(** Deposits to [id], incoming transfers, withdrawals from [id], outgoing
    transfers. *)
Definition depositsTo (id : string) : list Transaction -> Q :=
  sumWhere (λ tx, ofType TransactionDeposit tx && String.eqb (ToUserID tx) id).
Definition transfersTo (id : string) : list Transaction -> Q :=
  sumWhere (λ tx, ofType TransactionTransfer tx && String.eqb (ToUserID tx) id).
Definition withdrawalsFrom (id : string) : list Transaction -> Q :=
  sumWhere (λ tx, ofType TransactionWithdraw tx
                  && String.eqb (FromUserID tx) id).
Definition transfersFrom (id : string) : list Transaction -> Q :=
  sumWhere (λ tx, ofType TransactionTransfer tx
                  && String.eqb (FromUserID tx) id).

(** The net of the log entries of [id]. *)
Definition netOfLog (id : string) (txs : list Transaction) : Q :=
  (depositsTo id txs + transfersTo id txs
   - withdrawalsFrom id txs - transfersFrom id txs)%Q.

(** What one more entry adds to the net of [id]. *)
Definition netOfEntry (id : string) (tx : Transaction) : Q :=
  netOfLog id [tx].

(** What every state of a run satisfies: users and wallets cover the same
    ids, each balance is the net of the log entries of its id, the log names
    registered ids only, and no balance is negative. *)
Record ledger_inv (ws : WalletService) : Prop := {
  inv_dom : dom (users ws) =@{gset string} dom (wallets ws);
  inv_balance : forall id w,
    wallets ws !! id = Some w ->
    (dval (Balance w) == netOfLog id (transactions ws))%Q;
  inv_log_ids : forall tx,
    In tx (transactions ws) ->
    is_Some (wallets ws !! FromUserID tx) /\
    is_Some (wallets ws !! ToUserID tx);
  inv_nonneg : forall id w,
    wallets ws !! id = Some w -> (0 <= dval (Balance w))%Q
}.

(** The id [generateTransactionID] makes of a clock reading. *)
Definition txid (clk : Clock) : string :=
  ("tx_" +:+ pretty (UnixNano clk))%string.

(** The transaction an operation logs. *)
Definition logged (clk : Clock) (fromUserID toUserID : string)
    (amount : Decimal) (type : TransactionType) (description : string)
  : Transaction :=
  {| ID := txid clk;
     FromUserID := fromUserID;
     ToUserID := toUserID;
     Amount := amount;
     Type_ := type;
     Description := description;
     Timestamp := Unix clk |}.

(** Clock readings for the examples: [noon], and [n] nanoseconds later. *)
Definition noon : Clock :=
  {| UnixNano := 1700000000000000000; Unix := 1700000000 |}.

Definition after (n : Z) : Clock :=
  {| UnixNano := UnixNano noon + n; Unix := Unix noon |}.

(** The scenario of the spec: accounts A and B, 100.50 deposited into A,
    30.25 transferred from A to B. *)
Definition demo_calls : list (Clock * call) :=
  [(noon, CallCreateUser "A" "Alice" "alice@example.com");
   (after 1000, CallCreateUser "B" "Bob" "bob@example.com");
   (after 2000, CallDeposit "A" (Finite (New 10050 (-2))) "deposit");
   (after 3000, CallTransfer "A" "B" (Finite (New 3025 (-2))) "transfer")].

Definition demo : WalletService := run demo_calls NewWalletService.

(** A service where A holds 10. *)
Definition poor_calls : list (Clock * call) :=
  [(noon, CallCreateUser "A" "Alice" "alice@example.com");
   (after 1000, CallCreateUser "B" "Bob" "bob@example.com");
   (after 2000, CallDeposit "A" (Finite (New 10 0)) "deposit")].

Definition poor : WalletService := run poor_calls NewWalletService.

(** The smaller and the larger of two ids in the lexicographic order. *)
Definition smaller (a b : string) : string := if String.leb a b then a else b.
Definition larger (a b : string) : string := if String.leb a b then b else a.

(** Whether a transaction names [id] as its source or its destination. *)
Definition involves (id : string) (tx : Transaction) : bool :=
  String.eqb (FromUserID tx) id || String.eqb (ToUserID tx) id.

(** * The rest of the service, and definitions for its properties *)

(** [GetAllUsers].  A [range] over a Go map visits the entries in an order
    the language leaves open; the model visits them in the order of
    [map_to_list], and what is proved of the result does not depend on the
    order. *)
Definition GetAllUsers : M (list User) :=
  RLock ServiceMu ;;
  entries ← gets (λ ws, map_to_list (users ws));
  let users := fold_left (λ users entry, users ++ [entry.2]) entries [] in
  RUnlock ServiceMu ;;
  mret users.

(** [LoadOrStore] on the lock table, as [getLock] performs it. *)
Definition loadOrStore (userID : string) (locks : gmap string nat)
  : gmap string nat :=
  match locks !! userID with
  | Some _ => locks
  | None => <[userID := size locks]> locks
  end.

(** A lock table in which every address is below the next free one and no
    two ids share a mutex. *)
Definition lock_table_ok (locks : gmap string nat) : Prop :=
  (forall id lock, locks !! id = Some lock -> (lock < size locks)%nat) /\
  (forall id id' lock,
     locks !! id = Some lock -> locks !! id' = Some lock -> id = id').

(** The ids a call names. *)
Definition names (c : call) (id : string) : bool :=
  match c with
  | CallCreateUser userID _ _
  | CallDeposit userID _ _
  | CallDepositDecimal userID _ _
  | CallWithdraw userID _ _ => String.eqb userID id
  | CallTransfer fromUserID toUserID _ _ =>
      String.eqb fromUserID id || String.eqb toUserID id
  end.

(** The shape of a log entry: a positive amount; a deposit or a withdrawal
    names one account twice, a transfer two different accounts. *)
Definition well_formed (tx : Transaction) : Prop :=
  (0 < dval (Amount tx))%Q /\
  (((Type_ tx = TransactionDeposit \/ Type_ tx = TransactionWithdraw) /\
    FromUserID tx = ToUserID tx) \/
   (Type_ tx = TransactionTransfer /\ FromUserID tx <> ToUserID tx)).

(** The sum of all balances, and the totals of the log. *)
Fixpoint sumBalances (entries : list (string * Wallet)) : Q :=
  match entries with
  | [] => 0%Q
  | entry :: rest => (dval (Balance entry.2) + sumBalances rest)%Q
  end.

Definition totalBalance (ws : WalletService) : Q :=
  sumBalances (map_to_list (wallets ws)).

Definition totalDeposited : list Transaction -> Q :=
  sumWhere (ofType TransactionDeposit).

Definition totalWithdrawn : list Transaction -> Q :=
  sumWhere (ofType TransactionWithdraw).

(** ** Reading a trace *)

Definition mutex_eqb (m1 m2 : mutex) : bool :=
  match m1, m2 with
  | ServiceMu, ServiceMu => true
  | UserLock a, UserLock b => Nat.eqb a b
  | WalletMu a, WalletMu b => String.eqb a b
  | _, _ => false
  end.

(** How a mutex is held: by [Lock] or by [RLock]. *)
Inductive mode : Type := Exclusive | Shared.

Definition holds (held : list (mutex * mode)) (m : mutex) : bool :=
  existsb (λ h, mutex_eqb h.1 m) held.

Definition holds_exclusive (held : list (mutex * mode)) (m : mutex) : bool :=
  existsb (λ h, mutex_eqb h.1 m
                && match h.2 with Exclusive => true | Shared => false end)
          held.

(** A trace keeps the lock discipline, starting with the mutexes [held]
    (latest first): no mutex is locked while it is held; each unlock
    releases the mutex acquired last, in the mode it was acquired in; a
    balance is written only under [Lock] of the wallet's mutex and of the
    mutex the lock table [locks] has for the user; the log is appended to
    only under [Lock] of [ws.mu]; at the end nothing is held. *)
Fixpoint disciplined (locks : gmap string nat) (held : list (mutex * mode))
    (t : list event) : bool :=
  match t with
  | [] => match held with [] => true | _ :: _ => false end
  | EvLock m :: t' =>
      negb (holds held m) && disciplined locks ((m, Exclusive) :: held) t'
  | EvRLock m :: t' =>
      negb (holds held m) && disciplined locks ((m, Shared) :: held) t'
  | EvUnlock m :: t' =>
      match held with
      | (m', Exclusive) :: rest => mutex_eqb m' m && disciplined locks rest t'
      | _ => false
      end
  | EvRUnlock m :: t' =>
      match held with
      | (m', Shared) :: rest => mutex_eqb m' m && disciplined locks rest t'
      | _ => false
      end
  | EvStoreBalance userID _ :: t' =>
      holds_exclusive held (WalletMu userID)
      && match locks !! userID with
         | Some lock => holds_exclusive held (UserLock lock)
         | None => false
         end
      && disciplined locks held t'
  | EvAppend _ :: t' =>
      holds_exclusive held ServiceMu && disciplined locks held t'
  end.

(** The pairs (outer, inner) of a trace: [inner] is acquired while [outer]
    is held. *)
Fixpoint nestings (held : list mutex) (t : list event)
  : list (mutex * mutex) :=
  match t with
  | [] => []
  | EvLock m :: t' | EvRLock m :: t' =>
      map (λ outer, (outer, m)) held ++ nestings (m :: held) t'
  | EvUnlock m :: t' | EvRUnlock m :: t' =>
      nestings (List.filter (λ h, negb (mutex_eqb h m)) held) t'
  | EvStoreBalance _ _ :: t' | EvAppend _ :: t' => nestings held t'
  end.

(** Whether a trace acquires [ws.mu] while a wallet's mutex is held. *)
Definition service_under_wallet (t : list event) : bool :=
  existsb (λ p, match p with
                | (WalletMu _, ServiceMu) => true
                | _ => false
                end)
          (nestings [] t).

(** * Facts about decimals *)

Section DecimalFacts.

Local Open Scope Q_scope.

Lemma ten_pow_pos (e : Z) : 0 < (10 # 1) ^ e.
Proof. apply Qpower_0_lt. reflexivity. Qed.

Lemma ten_pow_split (k e : Z) :
  (0 <= k)%Z -> inject_Z (10 ^ k) * (10 # 1) ^ e == (10 # 1) ^ (k + e).
Proof.
  intros Hk. rewrite Zpower_Qpower by exact Hk.
  rewrite Qpower_plus by discriminate. reflexivity.
Qed.

(** Rescaling to a smaller exponent keeps the number. *)
Lemma dval_rescale_down (d : Decimal) (e : Z) :
  (e <= exp d)%Z -> dval (rescale d e) == dval d.
Proof.
  intros He. unfold rescale.
  destruct (Z.eqb_spec (exp d) e) as [_|Hne]; [reflexivity|].
  destruct (Z.ltb_spec (exp d) e) as [Hlt|_]; [lia|].
  unfold dval; cbn [value exp].
  rewrite inject_Z_mult, <- Qmult_assoc.
  rewrite ten_pow_split by lia.
  replace (Z.abs (e - exp d) + e)%Z with (exp d) by lia. reflexivity.
Qed.

Lemma exp_rescale (d : Decimal) (e : Z) : exp (rescale d e) = e.
Proof.
  unfold rescale. destruct (Z.eqb_spec (exp d) e); [assumption|].
  destruct (exp d <? e)%Z; reflexivity.
Qed.

(** What [RescalePair] guarantees: a common exponent, the numbers kept. *)
Lemma RescalePair_spec (d1 d2 : Decimal) :
  exp (fst (RescalePair d1 d2)) = exp (snd (RescalePair d1 d2)) /\
  dval (fst (RescalePair d1 d2)) == dval d1 /\
  dval (snd (RescalePair d1 d2)) == dval d2.
Proof.
  unfold RescalePair.
  destruct (Z.eqb_spec (exp d1) (exp d2)) as [Heq|Hne]; cbn [fst snd].
  - split; [exact Heq|split; reflexivity].
  - destruct (Z.eqb_spec (Z.min (exp d1) (exp d2)) (exp d1)) as [Hm|Hm];
      cbn [negb fst snd]; rewrite exp_rescale.
    + split; [lia|]. split; [reflexivity|]. apply dval_rescale_down. lia.
    + split; [lia|]. split; [|reflexivity]. apply dval_rescale_down. lia.
Qed.

Lemma dval_Add (a b : Decimal) : dval (Add a b) == dval a + dval b.
Proof.
  unfold Add. destruct (RescalePair_spec a b) as (He & Ha & Hb).
  destruct (RescalePair a b) as [ra rb]; cbn [fst snd] in *.
  rewrite <- Ha, <- Hb. unfold dval; cbn [value exp].
  rewrite inject_Z_plus, He. ring.
Qed.

Lemma dval_Sub (a b : Decimal) : dval (Sub a b) == dval a - dval b.
Proof.
  unfold Sub. destruct (RescalePair_spec a b) as (He & Ha & Hb).
  destruct (RescalePair a b) as [ra rb]; cbn [fst snd] in *.
  rewrite <- Ha, <- Hb. unfold dval; cbn [value exp].
  unfold Z.sub. rewrite inject_Z_plus, inject_Z_opp, He. ring.
Qed.

Lemma dval_Zero : dval Zero == 0.
Proof. reflexivity. Qed.

Lemma dval_same_exp_compare (a b : Decimal) :
  exp a = exp b -> (value a ?= value b)%Z = (dval a ?= dval b).
Proof.
  intros He. unfold dval. rewrite He.
  pose proof (ten_pow_pos (exp b)) as Hp.
  destruct (Z.compare_spec (value a) (value b)) as [Heq|Hlt|Hgt]; symmetry.
  - rewrite Heq. apply Qeq_alt. reflexivity.
  - apply Qlt_alt. apply Qmult_lt_compat_r; [exact Hp|].
    rewrite <- Zlt_Qlt. exact Hlt.
  - apply Qgt_alt. apply Qmult_lt_compat_r; [exact Hp|].
    rewrite <- Zlt_Qlt. exact Hgt.
Qed.

(** [Cmp] compares the numbers. *)
Lemma Cmp_spec (a b : Decimal) : Cmp a b = cmpInt (dval a ?= dval b).
Proof.
  assert (Hcommon : bigCmp (value (fst (RescalePair a b)))
                           (value (snd (RescalePair a b)))
                    = cmpInt (dval a ?= dval b)).
  { destruct (RescalePair_spec a b) as (He & Ha & Hb).
    unfold bigCmp. rewrite (dval_same_exp_compare _ _ He).
    rewrite Ha, Hb. reflexivity. }
  unfold Cmp. destruct (Z.eqb_spec (exp a) (exp b)) as [He|Hne].
  - unfold bigCmp. rewrite (dval_same_exp_compare _ _ He). reflexivity.
  - destruct (RescalePair a b) as [ra rb]; cbn [fst snd] in Hcommon.
    exact Hcommon.
Qed.

Lemma LessThan_spec (a b : Decimal) :
  LessThan a b = true <-> dval a < dval b.
Proof.
  unfold LessThan. rewrite Cmp_spec, Qlt_alt.
  destruct (dval a ?= dval b); cbn; split; congruence.
Qed.

Lemma LessThan_false (a b : Decimal) :
  LessThan a b = false <-> dval b <= dval a.
Proof.
  rewrite <- Bool.not_true_iff_false, LessThan_spec. split.
  - apply Qnot_lt_le.
  - apply Qle_not_lt.
Qed.

Lemma LessThanOrEqual_spec (a b : Decimal) :
  LessThanOrEqual a b = true <-> dval a <= dval b.
Proof.
  unfold LessThanOrEqual. rewrite Cmp_spec, Qle_alt.
  destruct (dval a ?= dval b); cbn; split; congruence.
Qed.

Lemma LessThanOrEqual_false (a b : Decimal) :
  LessThanOrEqual a b = false <-> dval b < dval a.
Proof.
  rewrite <- Bool.not_true_iff_false, LessThanOrEqual_spec. split.
  - apply Qnot_le_lt.
  - apply Qlt_not_le.
Qed.


End DecimalFacts.

(** * The operations in direct style *)

(** Unfolding the monad. *)
Ltac unfold_M :=
  unfold recordTransaction, storeBalance, loadBalance, generateTransactionID,
    timeNowUnix, getOrderedLocks, Lock, Unlock, RLock, RUnlock, emit, gets,
    modify, mbind, M_bind, mret, M_ret, retval, final, trace in *.

(** [getLock] touches the lock table only. *)
Lemma getLock_frame (userID : string) (clk : Clock) (ws : WalletService) :
  users (final (getLock userID clk ws)) = users ws /\
  wallets (final (getLock userID clk ws)) = wallets ws /\
  transactions (final (getLock userID clk ws)) = transactions ws /\
  trace (getLock userID clk ws) = [].
Proof.
  unfold getLock, final, trace.
  destruct (userLocks ws !! userID); cbn; auto.
Qed.

(** The lock returned is the one the table holds afterwards. *)
Lemma getLock_lookup (userID : string) (clk : Clock) (ws : WalletService) :
  userLocks (final (getLock userID clk ws)) !! userID
  = Some (retval (getLock userID clk ws)).
Proof.
  unfold getLock, final, retval.
  destruct (userLocks ws !! userID) eqn:E; cbn; [exact E|].
  apply lookup_insert_eq.
Qed.

(** Entries of the lock table stay as they are. *)
Lemma getLock_preserves (userID other : string) (clk : Clock)
    (ws : WalletService) (lock : nat) :
  userLocks ws !! other = Some lock ->
  userLocks (final (getLock userID clk ws)) !! other = Some lock.
Proof.
  intros H. unfold getLock, final.
  destruct (userLocks ws !! userID) eqn:E; cbn; [exact H|].
  rewrite lookup_insert_ne; [exact H|]. intros ->. congruence.
Qed.

(** A second request for a lock is a pure read. *)
Lemma getLock_known (userID : string) (clk : Clock) (ws : WalletService)
    (lock : nat) :
  userLocks ws !! userID = Some lock ->
  getLock userID clk ws = (lock, ws, []).
Proof. intros H. unfold getLock. rewrite H. reflexivity. Qed.

Lemma alter_Some (f : Wallet -> Wallet) (k : string) (w : Wallet)
    (m : gmap string Wallet) :
  m !! k = Some w -> alter f k m = <[k := f w]> m.
Proof.
  intros H. apply map_eq. intros i.
  destruct (decide (k = i)) as [->|Hne].
  - rewrite lookup_alter_eq, lookup_insert_eq, H. reflexivity.
  - rewrite lookup_alter_ne, lookup_insert_ne by assumption. reflexivity.
Qed.

(** Name the result of a [getLock] and keep what it leaves untouched. *)
Ltac name_getLock userID clk ws lock ws1 :=
  let Hu := fresh "Husers" in
  let Hw := fresh "Hwallets" in
  let Ht := fresh "Hlog" in
  let Hg := fresh "Hget" in
  destruct (getLock_frame userID clk ws) as (Hu & Hw & Ht & _);
  destruct (getLock userID clk ws) as [[lock ws1] ?] eqn:Hg;
  unfold final in Hu, Hw, Ht; cbn [fst snd] in Hu, Hw, Ht.

(** [getOrderedLocks] touches the lock table only, and returns the locks the
    table then holds for the two ids. *)
Lemma getOrderedLocks_spec (userID1 userID2 : string) (clk : Clock)
    (ws : WalletService) :
  exists (lock1 lock2 : nat) (ws' : WalletService),
    getOrderedLocks userID1 userID2 clk ws
    = (if String.ltb userID1 userID2 then (lock1, lock2) else (lock2, lock1),
       ws', []) /\
    userLocks ws' !! userID1 = Some lock1 /\
    userLocks ws' !! userID2 = Some lock2 /\
    users ws' = users ws /\
    wallets ws' = wallets ws /\
    transactions ws' = transactions ws.
Proof.
  unfold getOrderedLocks. unfold_M.
  pose proof (getLock_lookup userID1 clk ws) as Hl1.
  pose proof (getLock_frame userID1 clk ws) as (_ & _ & _ & Ht1).
  name_getLock userID1 clk ws lock1 ws1.
  pose proof (getLock_lookup userID2 clk ws1) as Hl2.
  pose proof (getLock_preserves userID2 userID1 clk ws1 lock1) as Hkeep.
  pose proof (getLock_frame userID2 clk ws1) as (_ & _ & _ & Ht2).
  name_getLock userID2 clk ws1 lock2 ws2.
  unfold final, retval, trace in *. cbn [fst snd] in *. subst.
  exists lock1, lock2, ws2.
  split; [destruct (String.ltb userID1 userID2); reflexivity|].
  split; [apply Hkeep; exact Hl1|].
  split; [exact Hl2|].
  repeat split; congruence.
Qed.

Lemma CreateUser_run (userID name email : string) (clk : Clock)
    (ws : WalletService) :
  CreateUser userID name email clk ws =
  match users ws !! userID with
  | Some _ =>
      (Some ErrUserAlreadyExists, ws, [EvLock ServiceMu; EvUnlock ServiceMu])
  | None =>
      (None,
       {| users := <[userID := {| User_ID := userID; Name := name;
                                  Email := email |}]> (users ws);
          wallets := <[userID := {| UserID := userID; Balance := New 0 0 |}]>
                       (wallets ws);
          transactions := transactions ws;
          userLocks := userLocks ws |},
       [EvLock ServiceMu; EvUnlock ServiceMu])
  end.
Proof.
  unfold CreateUser. unfold_M. cbn.
  destruct (users ws !! userID); reflexivity.
Qed.

Lemma DepositDecimal_run (userID : string) (amount : Decimal)
    (description : string) (clk : Clock) (ws : WalletService) :
  DepositDecimal userID amount description clk ws =
  if LessThanOrEqual amount Zero then (Some ErrInvalidAmount, ws, [])
  else
    let '(lock, ws1, _) := getLock userID clk ws in
    match wallets ws !! userID with
    | None =>
        (Some ErrUserNotFound, ws1,
         [EvLock (UserLock lock); EvRLock ServiceMu; EvRUnlock ServiceMu;
          EvUnlock (UserLock lock)])
    | Some w =>
        let tx := logged clk userID userID amount TransactionDeposit
                    description in
        (None,
         {| users := users ws1;
            wallets := <[userID := setBalance w (Add (Balance w) amount)]>
                         (wallets ws);
            transactions := transactions ws ++ [tx];
            userLocks := userLocks ws1 |},
         [EvLock (UserLock lock); EvRLock ServiceMu; EvRUnlock ServiceMu;
          EvLock (WalletMu userID);
          EvStoreBalance userID (Add (Balance w) amount);
          EvUnlock (WalletMu userID);
          EvLock ServiceMu; EvAppend tx; EvUnlock ServiceMu;
          EvUnlock (UserLock lock)])
    end.
Proof.
  unfold DepositDecimal. destruct (LessThanOrEqual amount Zero); [reflexivity|].
  unfold_M.
  pose proof (getLock_frame userID clk ws) as (_ & _ & _ & Htr).
  name_getLock userID clk ws lock ws1.
  unfold trace in Htr; cbn [snd] in Htr; subst. cbn.
  rewrite Hwallets. destruct (wallets ws !! userID) as [w|] eqn:Hw; cbn.
  - rewrite Hwallets, Hw, Hlog, (alter_Some _ _ _ _ Hw). reflexivity.
  - reflexivity.
Qed.

Lemma Deposit_run (userID : string) (amount : float64)
    (description : string) (clk : Clock) (ws : WalletService) :
  Deposit userID amount description clk ws =
  match NewFromFloat amount with
  | None => (Panics, ws, [])
  | Some d =>
      let '(err, ws', t) := DepositDecimal userID d description clk ws in
      (Returns err, ws', t)
  end.
Proof.
  unfold Deposit. destruct (NewFromFloat amount) as [d|]; [|reflexivity].
  unfold_M. destruct (DepositDecimal userID d description clk ws) as [[? ?] ?].
  rewrite app_nil_r. reflexivity.
Qed.

Lemma Withdraw_run (userID : string) (amount : float64)
    (description : string) (clk : Clock) (ws : WalletService) :
  Withdraw userID amount description clk ws =
  match NewFromFloat amount with
  | None => (Panics, ws, [])
  | Some d =>
      if LessThanOrEqual d Zero then (Returns (Some ErrInvalidAmount), ws, [])
      else
        let '(lock, ws1, _) := getLock userID clk ws in
        match wallets ws !! userID with
        | None =>
            (Returns (Some ErrUserNotFound), ws1,
             [EvLock (UserLock lock); EvRLock ServiceMu; EvRUnlock ServiceMu;
              EvUnlock (UserLock lock)])
        | Some w =>
            if LessThan (Balance w) d
            then
              (Returns (Some ErrInsufficientBalance), ws1,
               [EvLock (UserLock lock); EvRLock ServiceMu;
                EvRUnlock ServiceMu; EvLock (WalletMu userID);
                EvUnlock (WalletMu userID); EvUnlock (UserLock lock)])
            else
              let tx := logged clk userID userID d TransactionWithdraw
                          description in
              (Returns None,
               {| users := users ws1;
                  wallets := <[userID := setBalance w (Sub (Balance w) d)]>
                               (wallets ws);
                  transactions := transactions ws ++ [tx];
                  userLocks := userLocks ws1 |},
               [EvLock (UserLock lock); EvRLock ServiceMu;
                EvRUnlock ServiceMu; EvLock (WalletMu userID);
                EvStoreBalance userID (Sub (Balance w) d);
                EvLock ServiceMu; EvAppend tx; EvUnlock ServiceMu;
                EvUnlock (WalletMu userID); EvUnlock (UserLock lock)])
        end
  end.
Proof.
  unfold Withdraw. destruct (NewFromFloat amount) as [d|]; [|reflexivity].
  destruct (LessThanOrEqual d Zero); [reflexivity|].
  unfold_M.
  pose proof (getLock_frame userID clk ws) as (_ & _ & _ & Htr).
  name_getLock userID clk ws lock ws1.
  unfold trace in Htr; cbn [snd] in Htr; subst. cbn.
  rewrite Hwallets. destruct (wallets ws !! userID) as [w|] eqn:Hw; cbn;
    [|reflexivity].
  rewrite Hwallets, Hw. destruct (LessThan (Balance w) d); cbn; [reflexivity|].
  rewrite Hwallets, Hlog, (alter_Some _ _ _ _ Hw). reflexivity.
Qed.

Lemma Transfer_run (fromUserID toUserID : string) (amount : float64)
    (description : string) (clk : Clock) (ws : WalletService) :
  Transfer fromUserID toUserID amount description clk ws =
  match NewFromFloat amount with
  | None => (Panics, ws, [])
  | Some d =>
      if LessThanOrEqual d Zero then (Returns (Some ErrInvalidAmount), ws, [])
      else if String.eqb fromUserID toUserID
      then (Returns (Some ErrSameUserTransfer), ws, [])
      else
        match wallets ws !! fromUserID, wallets ws !! toUserID with
        | Some wf, Some wt =>
            let '(firstLock, secondLock, ws1, _) :=
              getOrderedLocks fromUserID toUserID clk ws in
            if LessThan (Balance wf) d
            then
              (Returns (Some ErrInsufficientBalance), ws1,
               [EvRLock ServiceMu; EvRUnlock ServiceMu;
                EvLock (UserLock firstLock); EvLock (UserLock secondLock);
                EvLock (WalletMu fromUserID); EvUnlock (WalletMu fromUserID);
                EvUnlock (UserLock secondLock); EvUnlock (UserLock firstLock)])
            else
              let tx := logged clk fromUserID toUserID d TransactionTransfer
                          description in
              (Returns None,
               {| users := users ws1;
                  wallets :=
                    <[toUserID := setBalance wt (Add (Balance wt) d)]>
                      (<[fromUserID := setBalance wf (Sub (Balance wf) d)]>
                         (wallets ws));
                  transactions := transactions ws ++ [tx];
                  userLocks := userLocks ws1 |},
               [EvRLock ServiceMu; EvRUnlock ServiceMu;
                EvLock (UserLock firstLock); EvLock (UserLock secondLock);
                EvLock (WalletMu fromUserID);
                EvStoreBalance fromUserID (Sub (Balance wf) d);
                EvUnlock (WalletMu fromUserID);
                EvLock (WalletMu toUserID);
                EvStoreBalance toUserID (Add (Balance wt) d);
                EvUnlock (WalletMu toUserID);
                EvLock ServiceMu; EvAppend tx; EvUnlock ServiceMu;
                EvUnlock (UserLock secondLock); EvUnlock (UserLock firstLock)])
        | _, _ =>
            (Returns (Some ErrUserNotFound), ws,
             [EvRLock ServiceMu; EvRUnlock ServiceMu])
        end
  end.
Proof.
  unfold Transfer. destruct (NewFromFloat amount) as [d|]; [|reflexivity].
  destruct (LessThanOrEqual d Zero); [reflexivity|].
  destruct (String.eqb_spec fromUserID toUserID) as [Heq|Hne]; [reflexivity|].
  destruct (getOrderedLocks_spec fromUserID toUserID clk ws)
    as (lock1 & lock2 & ws1 & Hrun & _ & _ & Hu & Hw & Hl).
  unfold mbind at 1 2 3 4. unfold M_bind at 1 2 3 4.
  unfold RLock, RUnlock, emit, gets. cbn [app].
  destruct (wallets ws !! fromUserID) as [wf|] eqn:Hf; [|reflexivity].
  destruct (wallets ws !! toUserID) as [wt|] eqn:Hto; [|reflexivity].
  unfold mbind at 1. unfold M_bind at 1. rewrite Hrun.
  destruct (String.ltb fromUserID toUserID); unfold_M; cbn;
    rewrite Hw, Hf;
    (destruct (LessThan (Balance wf) d); cbn; [reflexivity|]);
    rewrite Hw, Hl, lookup_alter_ne, Hto, (alter_Some _ _ _ _ Hf) by assumption;
    rewrite (alter_Some _ toUserID wt)
      by (rewrite lookup_insert_ne by assumption; exact Hto);
    reflexivity.
Qed.

Lemma GetBalanceDecimal_run (userID : string) (clk : Clock)
    (ws : WalletService) :
  GetBalanceDecimal userID clk ws =
  match wallets ws !! userID with
  | None =>
      ((Zero, Some ErrUserNotFound), ws,
       [EvRLock ServiceMu; EvRUnlock ServiceMu])
  | Some w =>
      ((Balance w, None), ws,
       [EvRLock ServiceMu; EvRLock (WalletMu userID);
        EvRUnlock (WalletMu userID); EvRUnlock ServiceMu])
  end.
Proof.
  unfold GetBalanceDecimal. unfold_M. cbn.
  destruct (wallets ws !! userID) as [w|] eqn:Hw; cbn; [|reflexivity].
  rewrite Hw. reflexivity.
Qed.

Lemma balance_lookup (ws : WalletService) (userID : string) :
  balance ws userID = match wallets ws !! userID with
                      | Some w => Balance w
                      | None => Zero
                      end.
Proof.
  unfold balance. rewrite GetBalanceDecimal_run.
  destruct (wallets ws !! userID); reflexivity.
Qed.

Lemma GetTransactionHistory_run (userID : string) (clk : Clock)
    (ws : WalletService) :
  GetTransactionHistory userID clk ws =
  match users ws !! userID with
  | None =>
      (([], Some ErrUserNotFound), ws,
       [EvRLock ServiceMu; EvRUnlock ServiceMu])
  | Some _ =>
      ((collectHistory userID (transactions ws), None), ws,
       [EvRLock ServiceMu; EvRUnlock ServiceMu])
  end.
Proof.
  unfold GetTransactionHistory. unfold_M. cbn.
  destruct (users ws !! userID); reflexivity.
Qed.

(** * How a call changes the state *)

Lemma CreateUser_transition (userID name email : string) (clk : Clock)
    (ws : WalletService) :
  transition ws (final (CreateUser userID name email clk ws)).
Proof.
  rewrite CreateUser_run. destruct (users ws !! userID) eqn:E.
  - apply tr_none; reflexivity.
  - eapply tr_create; [exact E|reflexivity..].
Qed.

Lemma DepositDecimal_transition (userID : string) (amount : Decimal)
    (description : string) (clk : Clock) (ws : WalletService) :
  transition ws (final (DepositDecimal userID amount description clk ws)).
Proof.
  rewrite DepositDecimal_run.
  destruct (LessThanOrEqual amount Zero) eqn:Hpos;
    [apply tr_none; reflexivity|].
  name_getLock userID clk ws lock ws1.
  destruct (wallets ws !! userID) as [w|] eqn:Hw.
  - apply tr_deposit with (userID := userID) (w := w)
      (tx := logged clk userID userID amount TransactionDeposit description);
      try reflexivity; assumption.
  - apply tr_none; assumption.
Qed.

Lemma Deposit_transition (userID : string) (amount : float64)
    (description : string) (clk : Clock) (ws : WalletService) :
  transition ws (final (Deposit userID amount description clk ws)).
Proof.
  rewrite Deposit_run. destruct (NewFromFloat amount) as [d|].
  - pose proof (DepositDecimal_transition userID d description clk ws) as H.
    destruct (DepositDecimal userID d description clk ws) as [[? ?] ?].
    exact H.
  - apply tr_none; reflexivity.
Qed.

Lemma Withdraw_transition (userID : string) (amount : float64)
    (description : string) (clk : Clock) (ws : WalletService) :
  transition ws (final (Withdraw userID amount description clk ws)).
Proof.
  rewrite Withdraw_run.
  destruct (NewFromFloat amount) as [d|]; [|apply tr_none; reflexivity].
  destruct (LessThanOrEqual d Zero) eqn:Hpos; [apply tr_none; reflexivity|].
  name_getLock userID clk ws lock ws1.
  destruct (wallets ws !! userID) as [w|] eqn:Hw; [|apply tr_none; assumption].
  destruct (LessThan (Balance w) d) eqn:Hlt; [apply tr_none; assumption|].
  apply tr_withdraw with (userID := userID) (w := w)
    (tx := logged clk userID userID d TransactionWithdraw description);
    try reflexivity; assumption.
Qed.

Lemma Transfer_transition (fromUserID toUserID : string) (amount : float64)
    (description : string) (clk : Clock) (ws : WalletService) :
  transition ws
    (final (Transfer fromUserID toUserID amount description clk ws)).
Proof.
  rewrite Transfer_run.
  destruct (NewFromFloat amount) as [d|]; [|apply tr_none; reflexivity].
  destruct (LessThanOrEqual d Zero) eqn:Hpos; [apply tr_none; reflexivity|].
  destruct (String.eqb_spec fromUserID toUserID) as [Heq|Hne];
    [apply tr_none; reflexivity|].
  destruct (wallets ws !! fromUserID) as [wf|] eqn:Hf;
    [|apply tr_none; reflexivity].
  destruct (wallets ws !! toUserID) as [wt|] eqn:Hto;
    [|apply tr_none; reflexivity].
  destruct (getOrderedLocks_spec fromUserID toUserID clk ws)
    as (lock1 & lock2 & ws1 & Hrun & _ & _ & Hu & Hw & Hl).
  rewrite Hrun.
  destruct (String.ltb fromUserID toUserID);
    (destruct (LessThan (Balance wf) d) eqn:Hlt;
     [apply tr_none; assumption|]);
    apply tr_transfer with (fromUserID := fromUserID) (toUserID := toUserID)
      (wf := wf) (wt := wt)
      (tx := logged clk fromUserID toUserID d TransactionTransfer description);
    try reflexivity; assumption.
Qed.

Lemma exec_transition (c : call) (clk : Clock) (ws : WalletService) :
  transition ws (final (exec c clk ws)).
Proof.
  destruct c; unfold exec.
  - pose proof (CreateUser_transition userID name email clk ws) as H.
    unfold_M. destruct (CreateUser userID name email clk ws) as [[? ?] ?].
    exact H.
  - apply Deposit_transition.
  - pose proof (DepositDecimal_transition userID amount description clk ws)
      as H.
    unfold_M.
    destruct (DepositDecimal userID amount description clk ws) as [[? ?] ?].
    exact H.
  - apply Withdraw_transition.
  - apply Transfer_transition.
Qed.

(** * The log, read the way the balance invariant does *)

Section LogFacts.

Local Open Scope Q_scope.

Lemma sumAmounts_app (l1 l2 : list Transaction) :
  sumAmounts (l1 ++ l2) == sumAmounts l1 + sumAmounts l2.
Proof.
  induction l1 as [|tx l1 IH]; cbn [sumAmounts app].
  - ring.
  - rewrite IH. ring.
Qed.

Lemma sumWhere_app (P : Transaction -> bool) (l1 l2 : list Transaction) :
  sumWhere P (l1 ++ l2) == sumWhere P l1 + sumWhere P l2.
Proof. unfold sumWhere. rewrite List.filter_app. apply sumAmounts_app. Qed.

Lemma netOfLog_app (id : string) (l1 l2 : list Transaction) :
  netOfLog id (l1 ++ l2) == netOfLog id l1 + netOfLog id l2.
Proof.
  unfold netOfLog, depositsTo, transfersTo, withdrawalsFrom, transfersFrom.
  rewrite !sumWhere_app. ring.
Qed.

Lemma netOfLog_snoc (id : string) (txs : list Transaction)
    (tx : Transaction) :
  netOfLog id (txs ++ [tx]) == netOfLog id txs + netOfEntry id tx.
Proof. apply netOfLog_app. Qed.

(** An entry that names neither end as [id] adds nothing. *)
Lemma netOfEntry_other (id : string) (tx : Transaction) :
  FromUserID tx <> id -> ToUserID tx <> id -> netOfEntry id tx == 0.
Proof.
  intros Hf Ht.
  unfold netOfEntry, netOfLog, depositsTo, transfersTo, withdrawalsFrom,
    transfersFrom, sumWhere.
  cbn [List.filter].
  apply String.eqb_neq in Hf, Ht. rewrite Hf, Ht, !andb_false_r. simpl. ring.
Qed.

Lemma netOfEntry_deposit (id : string) (tx : Transaction) :
  Type_ tx = TransactionDeposit -> ToUserID tx = id ->
  netOfEntry id tx == dval (Amount tx).
Proof.
  intros Hty Ht.
  unfold netOfEntry, netOfLog, depositsTo, transfersTo, withdrawalsFrom,
    transfersFrom, sumWhere, ofType.
  cbn [List.filter]. rewrite Hty, Ht, !String.eqb_refl. simpl. ring.
Qed.

Lemma netOfEntry_withdraw (id : string) (tx : Transaction) :
  Type_ tx = TransactionWithdraw -> FromUserID tx = id ->
  netOfEntry id tx == - dval (Amount tx).
Proof.
  intros Hty Hf.
  unfold netOfEntry, netOfLog, depositsTo, transfersTo, withdrawalsFrom,
    transfersFrom, sumWhere, ofType.
  cbn [List.filter]. rewrite Hty, Hf, !String.eqb_refl. simpl. ring.
Qed.

Lemma netOfEntry_transfer_out (id : string) (tx : Transaction) :
  Type_ tx = TransactionTransfer -> FromUserID tx = id ->
  ToUserID tx <> id ->
  netOfEntry id tx == - dval (Amount tx).
Proof.
  intros Hty Hf Ht. apply String.eqb_neq in Ht.
  unfold netOfEntry, netOfLog, depositsTo, transfersTo, withdrawalsFrom,
    transfersFrom, sumWhere, ofType.
  cbn [List.filter]. rewrite Hty, Hf, Ht, !String.eqb_refl. simpl. ring.
Qed.

Lemma netOfEntry_transfer_in (id : string) (tx : Transaction) :
  Type_ tx = TransactionTransfer -> ToUserID tx = id ->
  FromUserID tx <> id ->
  netOfEntry id tx == dval (Amount tx).
Proof.
  intros Hty Ht Hf. apply String.eqb_neq in Hf.
  unfold netOfEntry, netOfLog, depositsTo, transfersTo, withdrawalsFrom,
    transfersFrom, sumWhere, ofType.
  cbn [List.filter]. rewrite Hty, Hf, Ht, !String.eqb_refl. simpl. ring.
Qed.

(** A log that never names [id] has net zero for it. *)
Lemma netOfLog_absent (id : string) (txs : list Transaction) :
  (forall tx, In tx txs -> FromUserID tx <> id /\ ToUserID tx <> id) ->
  netOfLog id txs == 0.
Proof.
  induction txs as [|tx txs IH]; intros H.
  - reflexivity.
  - change (tx :: txs) with ([tx] ++ txs)%list. rewrite netOfLog_app.
    rewrite IH by (intros tx' Hin; apply H; right; exact Hin).
    destruct (H tx (or_introl eq_refl)) as [Hf Ht].
    change (netOfLog id [tx]) with (netOfEntry id tx).
    rewrite netOfEntry_other by assumption. ring.
Qed.

End LogFacts.

(** * The ledger invariant *)

Lemma ledger_inv_new : ledger_inv NewWalletService.
Proof.
  split; cbn.
  - reflexivity.
  - intros id w H. rewrite lookup_empty in H. discriminate.
  - intros tx [].
  - intros id w H. rewrite lookup_empty in H. discriminate.
Qed.

Section InvariantSteps.

Local Open Scope Q_scope.

Variables ws ws' : WalletService.
Hypothesis Hinv : ledger_inv ws.

Lemma is_Some_insert (k k' : string) (v : Wallet) (m : gmap string Wallet) :
  is_Some (m !! k) -> is_Some (<[k' := v]> m !! k).
Proof. intros H. apply lookup_insert_is_Some'. right. exact H. Qed.

Lemma inv_keep :
  users ws' = users ws -> wallets ws' = wallets ws ->
  transactions ws' = transactions ws -> ledger_inv ws'.
Proof.
  intros Hu Hw Ht. destruct Hinv as [Hd Hb Hl Hn].
  split; rewrite ?Hu, ?Hw, ?Ht; assumption.
Qed.

Lemma inv_create (userID : string) (u : User) :
  users ws !! userID = None ->
  users ws' = <[userID := u]> (users ws) ->
  wallets ws' = <[userID := {| UserID := userID; Balance := New 0 0 |}]>
                  (wallets ws) ->
  transactions ws' = transactions ws -> ledger_inv ws'.
Proof.
  intros Hfresh Hu Hw Ht. destruct Hinv as [Hd Hb Hl Hn].
  assert (Hnone : wallets ws !! userID = None).
  { apply not_elem_of_dom. rewrite <- Hd. apply not_elem_of_dom.
    exact Hfresh. }
  split; rewrite ?Hu, ?Hw, ?Ht.
  - rewrite !dom_insert_L, Hd. reflexivity.
  - intros id w. rewrite lookup_insert. case_decide as Hk.
    + intros [= <-]. subst id. cbn [Balance].
      rewrite netOfLog_absent; [reflexivity|].
      intros tx Hin. destruct (Hl tx Hin) as [[wf Hf] [wt Hto]].
      split; intros Heq; rewrite Heq in *; congruence.
    + apply Hb.
  - intros tx Hin. destruct (Hl tx Hin) as [Hf Hto].
    split; apply is_Some_insert; assumption.
  - intros id w. rewrite lookup_insert. case_decide as Hk.
    + intros [= <-]. cbn. discriminate.
    + apply Hn.
Qed.

(** The log gains [tx], which names registered ids only. *)
Lemma log_ids_snoc (m : gmap string Wallet) (tx : Transaction) :
  (forall k, is_Some (wallets ws !! k) -> is_Some (m !! k)) ->
  is_Some (wallets ws !! FromUserID tx) ->
  is_Some (wallets ws !! ToUserID tx) ->
  forall tx', In tx' (transactions ws ++ [tx]) ->
    is_Some (m !! FromUserID tx') /\ is_Some (m !! ToUserID tx').
Proof.
  intros Hm Hf Hto tx' Hin. apply in_app_or in Hin.
  destruct Hin as [Hin|[<-|[]]].
  - destruct (inv_log_ids ws Hinv tx' Hin). split; apply Hm; assumption.
  - split; apply Hm; assumption.
Qed.

Lemma inv_deposit (userID : string) (w : Wallet) (tx : Transaction) :
  wallets ws !! userID = Some w ->
  LessThanOrEqual (Amount tx) Zero = false ->
  FromUserID tx = userID -> ToUserID tx = userID ->
  Type_ tx = TransactionDeposit ->
  users ws' = users ws ->
  wallets ws' = <[userID := {| UserID := UserID w;
                               Balance := Add (Balance w) (Amount tx) |}]>
                  (wallets ws) ->
  transactions ws' = (transactions ws ++ [tx])%list ->
  ledger_inv ws'.
Proof.
  intros Hw Hpos Hfrom Hto Hty Hu Hws Ht.
  apply LessThanOrEqual_false in Hpos. rewrite dval_Zero in Hpos.
  pose proof (inv_balance ws Hinv userID w Hw) as Hbal.
  pose proof (inv_nonneg ws Hinv userID w Hw) as Hnn.
  split; rewrite ?Hu, ?Hws, ?Ht.
  - rewrite dom_insert_lookup_L by eauto. apply (inv_dom ws Hinv).
  - intros id w'. rewrite netOfLog_snoc, lookup_insert.
    case_decide as Hk.
    + intros [= <-]. subst id. cbn [Balance].
      rewrite dval_Add, netOfEntry_deposit, Hbal by assumption.
      reflexivity.
    + intros Hw'. rewrite netOfEntry_other by congruence.
      rewrite (inv_balance ws Hinv id w' Hw'). ring.
  - apply log_ids_snoc.
    + intros k. apply is_Some_insert.
    + rewrite Hfrom. eauto.
    + rewrite Hto. eauto.
  - intros id w'. rewrite lookup_insert. case_decide as Hk.
    + intros [= <-]. cbn [Balance]. rewrite dval_Add. lra.
    + apply (inv_nonneg ws Hinv).
Qed.

Lemma inv_withdraw (userID : string) (w : Wallet) (tx : Transaction) :
  wallets ws !! userID = Some w ->
  LessThan (Balance w) (Amount tx) = false ->
  FromUserID tx = userID -> ToUserID tx = userID ->
  Type_ tx = TransactionWithdraw ->
  users ws' = users ws ->
  wallets ws' = <[userID := {| UserID := UserID w;
                               Balance := Sub (Balance w) (Amount tx) |}]>
                  (wallets ws) ->
  transactions ws' = (transactions ws ++ [tx])%list ->
  ledger_inv ws'.
Proof.
  intros Hw Hge Hfrom Hto Hty Hu Hws Ht.
  apply LessThan_false in Hge.
  pose proof (inv_balance ws Hinv userID w Hw) as Hbal.
  split; rewrite ?Hu, ?Hws, ?Ht.
  - rewrite dom_insert_lookup_L by eauto. apply (inv_dom ws Hinv).
  - intros id w'. rewrite netOfLog_snoc, lookup_insert.
    case_decide as Hk.
    + intros [= <-]. subst id. cbn [Balance].
      rewrite dval_Sub, netOfEntry_withdraw, Hbal by assumption.
      reflexivity.
    + intros Hw'. rewrite netOfEntry_other by congruence.
      rewrite (inv_balance ws Hinv id w' Hw'). ring.
  - apply log_ids_snoc.
    + intros k. apply is_Some_insert.
    + rewrite Hfrom. eauto.
    + rewrite Hto. eauto.
  - intros id w'. rewrite lookup_insert. case_decide as Hk.
    + intros [= <-]. cbn [Balance]. rewrite dval_Sub. lra.
    + apply (inv_nonneg ws Hinv).
Qed.

Lemma inv_transfer (fromUserID toUserID : string) (wf wt : Wallet)
    (tx : Transaction) :
  fromUserID <> toUserID ->
  wallets ws !! fromUserID = Some wf ->
  wallets ws !! toUserID = Some wt ->
  LessThanOrEqual (Amount tx) Zero = false ->
  LessThan (Balance wf) (Amount tx) = false ->
  FromUserID tx = fromUserID -> ToUserID tx = toUserID ->
  Type_ tx = TransactionTransfer ->
  users ws' = users ws ->
  wallets ws' =
    <[toUserID := {| UserID := UserID wt;
                     Balance := Add (Balance wt) (Amount tx) |}]>
      (<[fromUserID := {| UserID := UserID wf;
                          Balance := Sub (Balance wf) (Amount tx) |}]>
         (wallets ws)) ->
  transactions ws' = (transactions ws ++ [tx])%list ->
  ledger_inv ws'.
Proof.
  intros Hne Hwf Hwt Hpos Hge Hfrom Hto Hty Hu Hws Ht.
  apply LessThanOrEqual_false in Hpos. rewrite dval_Zero in Hpos.
  apply LessThan_false in Hge.
  pose proof (inv_balance ws Hinv _ _ Hwf) as Hbf.
  pose proof (inv_balance ws Hinv _ _ Hwt) as Hbt.
  pose proof (inv_nonneg ws Hinv _ _ Hwt) as Hnt.
  split; rewrite ?Hu, ?Hws, ?Ht.
  - rewrite dom_insert_lookup_L, dom_insert_lookup_L; eauto;
      [apply (inv_dom ws Hinv)|].
    apply is_Some_insert. eauto.
  - intros id w'. rewrite netOfLog_snoc, lookup_insert.
    case_decide as Hk.
    + intros [= <-]. subst id. cbn [Balance].
      rewrite dval_Add, netOfEntry_transfer_in, Hbt by congruence.
      reflexivity.
    + rewrite lookup_insert. case_decide as Hk'.
      * intros [= <-]. subst id. cbn [Balance].
        rewrite dval_Sub, netOfEntry_transfer_out, Hbf by congruence.
        reflexivity.
      * intros Hw'. rewrite netOfEntry_other by congruence.
        rewrite (inv_balance ws Hinv id w' Hw'). ring.
  - apply log_ids_snoc.
    + intros k Hk. do 2 apply is_Some_insert. exact Hk.
    + rewrite Hfrom. eauto.
    + rewrite Hto. eauto.
  - intros id w'. rewrite lookup_insert. case_decide as Hk.
    + intros [= <-]. cbn [Balance]. rewrite dval_Add. lra.
    + rewrite lookup_insert. case_decide as Hk'.
      * intros [= <-]. cbn [Balance]. rewrite dval_Sub. lra.
      * apply (inv_nonneg ws Hinv).
Qed.

Lemma transition_inv : transition ws ws' -> ledger_inv ws'.
Proof.
  intros [ | | | | ].
  - apply inv_keep; assumption.
  - eapply inv_create; eassumption.
  - eapply inv_deposit; eassumption.
  - eapply inv_withdraw; eassumption.
  - eapply inv_transfer; eassumption.
Qed.

End InvariantSteps.

Lemma run_inv (cs : list (Clock * call)) (ws : WalletService) :
  ledger_inv ws -> ledger_inv (run cs ws).
Proof.
  revert ws. induction cs as [|[clk c] cs IH]; intros ws Hinv; cbn [run].
  - exact Hinv.
  - apply IH. eapply transition_inv; [exact Hinv|apply exec_transition].
Qed.

Lemma run_from_new_inv (cs : list (Clock * call)) :
  ledger_inv (run cs NewWalletService).
Proof. apply run_inv, ledger_inv_new. Qed.

(** * The claims *)

(** C1: after every sequence of completed calls on a fresh service, the
    balance of every id (as [GetBalanceDecimal] reports it) is the sum of
    the deposits to it and of the transfers into it, minus the withdrawals
    from it and the transfers out of it, as recorded in the log. *)
Theorem balance_is_net_of_log (cs : list (Clock * call)) (id : string) :
  (dval (balance (run cs NewWalletService) id)
   == depositsTo id (transactions (run cs NewWalletService))
      + transfersTo id (transactions (run cs NewWalletService))
      - withdrawalsFrom id (transactions (run cs NewWalletService))
      - transfersFrom id (transactions (run cs NewWalletService)))%Q.
Proof.
  pose proof (run_from_new_inv cs) as Hinv.
  change (dval (balance (run cs NewWalletService) id)
          == netOfLog id (transactions (run cs NewWalletService)))%Q.
  rewrite balance_lookup.
  destruct (wallets (run cs NewWalletService) !! id) as [w|] eqn:Hw.
  - apply (inv_balance _ Hinv id w Hw).
  - rewrite dval_Zero, netOfLog_absent; [reflexivity|].
    intros tx Hin. destruct (inv_log_ids _ Hinv tx Hin) as [[wf Hf] [wt Ht]].
    split; intros Heq; rewrite Heq in *; congruence.
Qed.

(** C2: a [Transfer] that returns [nil] takes exactly the amount from the
    balance of the source, adds exactly the amount to the balance of the
    destination, and leaves the sum of the two balances as it was. *)
Theorem Transfer_conservation (fromUserID toUserID : string)
    (amount : float64) (description : string) (clk : Clock)
    (ws : WalletService) :
  retval (Transfer fromUserID toUserID amount description clk ws)
  = Returns None ->
  exists d : Decimal,
    amount = Finite d /\
    let ws' := final (Transfer fromUserID toUserID amount description clk ws) in
    (dval (balance ws' fromUserID) == dval (balance ws fromUserID) - dval d /\
     dval (balance ws' toUserID) == dval (balance ws toUserID) + dval d /\
     dval (balance ws' fromUserID) + dval (balance ws' toUserID)
     == dval (balance ws fromUserID) + dval (balance ws toUserID))%Q.
Proof.
  intros Hret.
  pose proof (Transfer_run fromUserID toUserID amount description clk ws)
    as Hrun.
  destruct amount as [| |d]; cbn [NewFromFloat] in Hrun;
    [rewrite Hrun in Hret; discriminate..|].
  exists d. split; [reflexivity|]. cbv zeta.
  destruct (LessThanOrEqual d Zero); [rewrite Hrun in Hret; discriminate|].
  destruct (String.eqb_spec fromUserID toUserID) as [Heq|Hne];
    [rewrite Hrun in Hret; discriminate|].
  destruct (wallets ws !! fromUserID) as [wf|] eqn:Hf;
    [|rewrite Hrun in Hret; discriminate].
  destruct (wallets ws !! toUserID) as [wt|] eqn:Hto;
    [|rewrite Hrun in Hret; discriminate].
  destruct (getOrderedLocks fromUserID toUserID clk ws)
    as [[[firstLock secondLock] ws1] t].
  destruct (LessThan (Balance wf) d); [rewrite Hrun in Hret; discriminate|].
  rewrite Hrun. unfold final; cbn [fst snd].
  rewrite !balance_lookup, Hf, Hto. cbn [wallets].
  rewrite lookup_insert_ne, lookup_insert_eq, lookup_insert_eq
    by (intros E; apply Hne; symmetry; exact E).
  cbn [setBalance Balance]. rewrite dval_Sub, dval_Add.
  repeat split; ring.
Qed.

Lemma Transfer_conservation_witness :
  exists d : Decimal,
    Finite (New 1 0) = Finite d /\
    let ws' := final (Transfer "A" "B" (Finite (New 1 0)) "memo" noon demo) in
    (dval (balance ws' "A") == dval (balance demo "A") - dval d /\
     dval (balance ws' "B") == dval (balance demo "B") + dval d /\
     dval (balance ws' "A") + dval (balance ws' "B")
     == dval (balance demo "A") + dval (balance demo "B"))%Q.
Proof.
  apply (Transfer_conservation "A" "B" (Finite (New 1 0)) "memo" noon demo).
  vm_compute. reflexivity.
Defined.

(** The scenarios of the spec, run on the model. *)
Example demo_balances :
  balance demo "A" = New 7025 (-2) /\ balance demo "B" = New 3025 (-2).
Proof. vm_compute. split; reflexivity. Qed.

Example demo_history_lengths :
  length (retval (GetTransactionHistory "A" noon demo)).1 = 2%nat /\
  length (retval (GetTransactionHistory "B" noon demo)).1 = 1%nat.
Proof. vm_compute. split; reflexivity. Qed.

Example precision_scenario :
  let ws := run [(noon, CallCreateUser "A" "Alice" "alice@example.com");
                 (noon, CallDepositDecimal "A" (New 1 (-1)) "0.1");
                 (noon, CallDepositDecimal "A" (New 2 (-1)) "0.2")]
                NewWalletService in
  Equal (balance ws "A") (New 3 (-1)) = true.
Proof. vm_compute. reflexivity. Qed.

(** C3, as stated, fails: a transfer of 50 from A to A, where A holds 10,
    has a source balance below the amount and yet does not fail with
    [ErrInsufficientBalance] (it fails with [ErrSameUserTransfer]); no more
    does a transfer from A to an unregistered id (it fails with
    [ErrUserNotFound]). *)
Lemma insufficient_transfer_other_error :
  reachable poor /\
  LessThan (balance poor "A") (New 50 0) = true /\
  retval (Transfer "A" "A" (Finite (New 50 0)) "memo" noon poor)
  <> Returns (Some ErrInsufficientBalance) /\
  retval (Transfer "A" "nobody" (Finite (New 50 0)) "memo" noon poor)
  <> Returns (Some ErrInsufficientBalance).
Proof.
  split; [exists poor_calls; reflexivity|].
  vm_compute. repeat split; discriminate.
Qed.

(** C3, amended: in every state of a run, a [Withdraw] from a registered
    account, or a [Transfer] from a registered account to another registered
    account, of a finite amount above the balance of the source returns
    [ErrInsufficientBalance] and leaves every balance, the registered users
    and the whole log as they were. *)
Theorem insufficient_balance_fails_unchanged (ws : WalletService)
    (fromUserID toUserID : string) (d : Decimal) (description : string)
    (clk : Clock) :
  reachable ws ->
  is_Some (wallets ws !! fromUserID) ->
  (dval (balance ws fromUserID) < dval d)%Q ->
  (let r := Withdraw fromUserID (Finite d) description clk ws in
   retval r = Returns (Some ErrInsufficientBalance) /\
   (forall id, balance (final r) id = balance ws id) /\
   users (final r) = users ws /\
   transactions (final r) = transactions ws) /\
  (fromUserID <> toUserID -> is_Some (wallets ws !! toUserID) ->
   let r := Transfer fromUserID toUserID (Finite d) description clk ws in
   retval r = Returns (Some ErrInsufficientBalance) /\
   (forall id, balance (final r) id = balance ws id) /\
   users (final r) = users ws /\
   transactions (final r) = transactions ws).
Proof.
  intros [cs ->] [wf Hf] Hlt.
  pose proof (run_from_new_inv cs) as Hinv.
  set (ws := run cs NewWalletService) in *.
  rewrite balance_lookup, Hf in Hlt.
  pose proof (inv_nonneg _ Hinv _ _ Hf) as Hnn.
  assert (Hpos : LessThanOrEqual d Zero = false).
  { apply LessThanOrEqual_false. rewrite dval_Zero. lra. }
  apply LessThan_spec in Hlt.
  split.
  - cbv zeta. rewrite Withdraw_run. cbn [NewFromFloat]. rewrite Hpos.
    name_getLock fromUserID clk ws lock ws1.
    rewrite Hf, Hlt. unfold retval, final; cbn [fst snd].
    repeat split; try assumption.
    intros id. rewrite !balance_lookup, Hwallets. reflexivity.
  - intros Hne [wt Hto]. cbv zeta.
    rewrite Transfer_run. cbn [NewFromFloat]. rewrite Hpos.
    destruct (String.eqb_spec fromUserID toUserID) as [Heq|_]; [contradiction|].
    rewrite Hf, Hto.
    destruct (getOrderedLocks_spec fromUserID toUserID clk ws)
      as (lock1 & lock2 & ws1 & Hrun & _ & _ & Hu & Hw & Ht).
    rewrite Hrun.
    destruct (String.ltb fromUserID toUserID); rewrite Hlt;
      unfold retval, final; cbn [fst snd];
      (repeat split; try assumption;
       intros id; rewrite !balance_lookup, Hw; reflexivity).
Qed.

Lemma insufficient_balance_fails_unchanged_witness :
  (let r := Withdraw "A" (Finite (New 50 0)) "memo" noon poor in
   retval r = Returns (Some ErrInsufficientBalance) /\
   (forall id, balance (final r) id = balance poor id) /\
   users (final r) = users poor /\
   transactions (final r) = transactions poor) /\
  (let r := Transfer "A" "B" (Finite (New 50 0)) "memo" noon poor in
   retval r = Returns (Some ErrInsufficientBalance) /\
   (forall id, balance (final r) id = balance poor id) /\
   users (final r) = users poor /\
   transactions (final r) = transactions poor).
Proof.
  assert (Hreach : reachable poor) by (exists poor_calls; reflexivity).
  assert (Hfrom : is_Some (wallets poor !! "A"))
    by (vm_compute; eexists; reflexivity).
  assert (Hto : is_Some (wallets poor !! "B"))
    by (vm_compute; eexists; reflexivity).
  assert (Hlt : (dval (balance poor "A") < dval (New 50 0))%Q)
    by (vm_compute; reflexivity).
  destruct (insufficient_balance_fails_unchanged poor "A" "B" (New 50 0) "memo"
              noon Hreach Hfrom Hlt) as [HW HT].
  split; [exact HW|]. apply HT; [discriminate|exact Hto].
Defined.

(** C5, as stated, fails: the amount is a [float64], and on the negative
    amount -Inf [Deposit], [Withdraw] and [Transfer] do not return
    [ErrInvalidAmount]: [decimal.NewFromFloat], the first statement of each,
    panics before the amount is checked. *)
Lemma negative_infinity_panics :
  Deposit "A" (Inf true) "memo" noon demo = (Panics, demo, []) /\
  Withdraw "A" (Inf true) "memo" noon demo = (Panics, demo, []) /\
  Transfer "A" "B" (Inf true) "memo" noon demo = (Panics, demo, []) /\
  retval (Deposit "A" (Inf true) "memo" noon demo)
  <> Returns (Some ErrInvalidAmount) /\
  retval (Withdraw "A" (Inf true) "memo" noon demo)
  <> Returns (Some ErrInvalidAmount) /\
  retval (Transfer "A" "B" (Inf true) "memo" noon demo)
  <> Returns (Some ErrInvalidAmount).
Proof. repeat split; discriminate. Qed.

(** C5, amended: [Deposit], [Withdraw] and [Transfer], whatever the ids,
    return [ErrInvalidAmount] on a finite amount that is zero or negative;
    they do so before any lock is taken (the trace of the call is empty) and
    leave the state as it was. *)
Theorem nonpositive_amount_rejected (userID toUserID : string)
    (d : Decimal) (description : string) (clk : Clock) (ws : WalletService) :
  (dval d <= 0)%Q ->
  Deposit userID (Finite d) description clk ws
  = (Returns (Some ErrInvalidAmount), ws, []) /\
  Withdraw userID (Finite d) description clk ws
  = (Returns (Some ErrInvalidAmount), ws, []) /\
  Transfer userID toUserID (Finite d) description clk ws
  = (Returns (Some ErrInvalidAmount), ws, []).
Proof.
  intros Hle.
  assert (Hcheck : LessThanOrEqual d Zero = true).
  { apply LessThanOrEqual_spec. rewrite dval_Zero. exact Hle. }
  rewrite Deposit_run, Withdraw_run, Transfer_run. cbn [NewFromFloat].
  unfold DepositDecimal. rewrite Hcheck. repeat split; reflexivity.
Qed.

Lemma nonpositive_amount_rejected_witness :
  Deposit "A" (Finite (New (-5) 0)) "memo" noon demo
  = (Returns (Some ErrInvalidAmount), demo, []) /\
  Withdraw "A" (Finite (New (-5) 0)) "memo" noon demo
  = (Returns (Some ErrInvalidAmount), demo, []) /\
  Transfer "A" "nobody" (Finite (New (-5) 0)) "memo" noon demo
  = (Returns (Some ErrInvalidAmount), demo, []).
Proof.
  apply (nonpositive_amount_rejected "A" "nobody" (New (-5) 0) "memo" noon demo).
  vm_compute. discriminate.
Defined.

(** C6, as stated, fails: a transfer of 0 from A to A does not fail with
    [ErrSameUserTransfer]; the amount is checked first and the call fails
    with [ErrInvalidAmount]. *)
Lemma same_account_transfer_of_zero :
  retval (Transfer "A" "A" (Finite (New 0 0)) "memo" noon demo)
  = Returns (Some ErrInvalidAmount) /\
  retval (Transfer "A" "A" (Finite (New 0 0)) "memo" noon demo)
  <> Returns (Some ErrSameUserTransfer).
Proof. vm_compute. split; [reflexivity|discriminate]. Qed.

(** C6, amended: a [Transfer] of a strictly positive finite amount from an
    id to itself returns [ErrSameUserTransfer], before any lock is taken (the trace
    is empty) and with the state as it was, whatever the balances and whether
    or not the id is registered. *)
Theorem same_account_transfer_rejected (userID : string) (d : Decimal)
    (description : string) (clk : Clock) (ws : WalletService) :
  (0 < dval d)%Q ->
  Transfer userID userID (Finite d) description clk ws
  = (Returns (Some ErrSameUserTransfer), ws, []).
Proof.
  intros Hpos.
  assert (Hcheck : LessThanOrEqual d Zero = false).
  { apply LessThanOrEqual_false. rewrite dval_Zero. exact Hpos. }
  rewrite Transfer_run. cbn [NewFromFloat].
  rewrite Hcheck, String.eqb_refl. reflexivity.
Qed.

Lemma same_account_transfer_rejected_witness :
  Transfer "A" "A" (Finite (New 50 0)) "memo" noon demo
  = (Returns (Some ErrSameUserTransfer), demo, []).
Proof.
  apply (same_account_transfer_rejected "A" (New 50 0) "memo" noon demo).
  vm_compute. reflexivity.
Defined.

(** ** Lock order *)

Lemma ltb_cases (a b : string) :
  (String.ltb a b = true /\ smaller a b = a /\ larger a b = b) \/
  (String.ltb a b = false /\ smaller a b = b /\ larger a b = a).
Proof.
  unfold String.ltb, smaller, larger, String.leb.
  destruct (String.compare a b) eqn:E; auto.
  apply String.compare_eq_iff in E. subst. auto.
Qed.




(** [getOrderedLocks] returns the lock of the smaller id first. *)
Lemma getOrderedLocks_sorted (a b : string) (clk : Clock)
    (ws : WalletService) :
  exists (first second : nat) (ws' : WalletService),
    getOrderedLocks a b clk ws = ((first, second), ws', []) /\
    userLocks ws' !! smaller a b = Some first /\
    userLocks ws' !! larger a b = Some second /\
    users ws' = users ws /\
    wallets ws' = wallets ws /\
    transactions ws' = transactions ws.
Proof.
  destruct (getOrderedLocks_spec a b clk ws)
    as (la & lb & ws' & Hrun & Ha & Hb & Hrest).
  destruct (ltb_cases a b) as [(Hlt & -> & ->)|(Hlt & -> & ->)];
    rewrite Hlt in Hrun.
  - exists la, lb, ws'. auto.
  - exists lb, la, ws'. auto.
Qed.


Example locks_of_demo_transfers :
  trace (Transfer "B" "A" (Finite (New 1 0)) "memo" noon demo)
  = [EvRLock ServiceMu; EvRUnlock ServiceMu;
     EvLock (UserLock 0); EvLock (UserLock 1);
     EvLock (WalletMu "B");
     EvStoreBalance "B" (New 2925 (-2));
     EvUnlock (WalletMu "B");
     EvLock (WalletMu "A");
     EvStoreBalance "A" (New 7125 (-2));
     EvUnlock (WalletMu "A");
     EvLock ServiceMu;
     EvAppend (logged noon "B" "A" (New 1 0) TransactionTransfer "memo");
     EvUnlock ServiceMu;
     EvUnlock (UserLock 1); EvUnlock (UserLock 0)] /\
  userLocks demo !! "A" = Some 0%nat /\
  userLocks demo !! "B" = Some 1%nat.
Proof. vm_compute. repeat split; reflexivity. Qed.

(** ** Transaction history *)

Lemma collectHistory_filter (id : string) (txs : list Transaction) :
  collectHistory id txs = List.filter (involves id) txs.
Proof.
  unfold collectHistory.
  assert (Hgen : forall acc,
    fold_left
      (λ userTransactions tx,
         if String.eqb (FromUserID tx) id || String.eqb (ToUserID tx) id
         then userTransactions ++ [tx] else userTransactions) txs acc
    = acc ++ List.filter (involves id) txs).
  { induction txs as [|tx txs IH]; intros acc; cbn [fold_left List.filter].
    - rewrite app_nil_r. reflexivity.
    - rewrite IH. unfold involves at 2.
      destruct (String.eqb (FromUserID tx) id || String.eqb (ToUserID tx) id).
      + rewrite <- app_assoc. reflexivity.
      + reflexivity. }
  apply Hgen.
Qed.

Lemma filter_sublist (P : Transaction -> bool) (txs : list Transaction) :
  sublist (List.filter P txs) txs.
Proof.
  induction txs as [|tx txs IH]; cbn [List.filter].
  - constructor.
  - destruct (P tx); constructor; exact IH.
Qed.

(** C8: [GetTransactionHistory] returns [ErrUserNotFound] for an id that is
    not registered; for a registered id it returns the transactions of the
    log that name the id as source or destination: each of them, as often as
    it occurs and no other, in the order of the log. *)
Theorem history_is_filtered_log (id : string) (clk : Clock)
    (ws : WalletService) :
  retval (GetTransactionHistory id clk ws)
  = match users ws !! id with
    | None => ([], Some ErrUserNotFound)
    | Some _ => (List.filter (involves id) (transactions ws), None)
    end /\
  (forall tx,
     In tx (List.filter (involves id) (transactions ws)) <->
     In tx (transactions ws) /\ (FromUserID tx = id \/ ToUserID tx = id)) /\
  sublist (List.filter (involves id) (transactions ws)) (transactions ws).
Proof.
  split; [|split].
  - rewrite GetTransactionHistory_run, collectHistory_filter.
    destruct (users ws !! id); reflexivity.
  - intros tx. rewrite List.filter_In. unfold involves.
    rewrite Bool.orb_true_iff, !String.eqb_eq. reflexivity.
  - apply filter_sublist.
Qed.

(** ** Registration *)

(** C9: [CreateUser] on a registered id returns [ErrUserAlreadyExists] and
    leaves the state as it was; on a new id it returns [nil] and registers
    the user with a wallet whose balance is [New(0, 0)], that is zero,
    leaving the other wallets and the log as they were. *)
Theorem CreateUser_spec (userID name email : string) (clk : Clock)
    (ws : WalletService) :
  let r := CreateUser userID name email clk ws in
  match users ws !! userID with
  | Some _ => retval r = Some ErrUserAlreadyExists /\ final r = ws
  | None =>
      retval r = None /\
      users (final r) = <[userID := {| User_ID := userID; Name := name;
                                       Email := email |}]> (users ws) /\
      wallets (final r) !! userID
      = Some {| UserID := userID; Balance := New 0 0 |} /\
      balance (final r) userID = New 0 0 /\
      Equal (balance (final r) userID) Zero = true /\
      (forall other, other <> userID ->
                     wallets (final r) !! other = wallets ws !! other) /\
      transactions (final r) = transactions ws
  end.
Proof.
  cbv zeta. rewrite CreateUser_run.
  destruct (users ws !! userID) eqn:E; unfold retval, final; cbn [fst snd].
  - split; reflexivity.
  - rewrite balance_lookup. cbn [users wallets transactions].
    rewrite lookup_insert_eq.
    repeat split; try reflexivity.
    intros other Hne. apply lookup_insert_ne. congruence.
Qed.

(** C10: in every state of a run the users map and the wallets map have the
    same ids, so [GetBalanceDecimal] returns [ErrUserNotFound] for an id
    exactly when [GetTransactionHistory] does. *)
Theorem users_and_wallets_agree (cs : list (Clock * call)) (id : string)
    (clk clk' : Clock) :
  let ws := run cs NewWalletService in
  dom (users ws) =@{gset string} dom (wallets ws) /\
  ((retval (GetBalanceDecimal id clk ws)).2 = Some ErrUserNotFound <->
   (retval (GetTransactionHistory id clk' ws)).2 = Some ErrUserNotFound).
Proof.
  cbv zeta. pose proof (inv_dom _ (run_from_new_inv cs)) as Hdom.
  split; [exact Hdom|].
  rewrite GetBalanceDecimal_run, GetTransactionHistory_run.
  destruct (wallets (run cs NewWalletService) !! id) as [w|] eqn:Hw;
    destruct (users (run cs NewWalletService) !! id) as [u|] eqn:Hu;
    unfold retval; cbn [fst snd]; try (split; congruence).
  - apply elem_of_dom_2 in Hw. rewrite <- Hdom in Hw.
    apply not_elem_of_dom in Hu. contradiction.
  - apply elem_of_dom_2 in Hu. rewrite Hdom in Hu.
    apply not_elem_of_dom in Hw. contradiction.
Qed.

(** ** Transaction ids *)

(** C7 fails on the code: two deposits whose calls of [time.Now()] read the
    same nanosecond log two transactions with the same [ID]. *)
Theorem same_nanosecond_same_id :
  let ws := run [(noon, CallCreateUser "A" "Alice" "alice@example.com");
                 (noon, CallDeposit "A" (Finite (New 1 0)) "first");
                 (noon, CallDeposit "A" (Finite (New 1 0)) "second")]
                NewWalletService in
  map ID (transactions ws)
  = ["tx_1700000000000000000"%string; "tx_1700000000000000000"%string] /\
  ~ NoDup (map ID (transactions ws)).
Proof.
  cbv zeta. split; [vm_compute; reflexivity|].
  intros Hnd. vm_compute in Hnd.
  apply NoDup_cons_1_1 in Hnd. apply Hnd. left.
Qed.

Lemma txid_inj (clk clk' : Clock) :
  txid clk = txid clk' -> UnixNano clk = UnixNano clk'.
Proof.
  unfold txid. cbn [String.append]. intros [= H].
  exact (pretty_Z_inj _ _ H).
Qed.

Lemma DepositDecimal_log (userID : string) (amount : Decimal)
    (description : string) (clk : Clock) (ws : WalletService) :
  transactions (final (DepositDecimal userID amount description clk ws))
  = transactions ws \/
  exists tx,
    transactions (final (DepositDecimal userID amount description clk ws))
    = transactions ws ++ [tx] /\ ID tx = txid clk.
Proof.
  rewrite DepositDecimal_run.
  destruct (LessThanOrEqual amount Zero); [left; reflexivity|].
  destruct (getLock_frame userID clk ws) as (_ & _ & Ht & _).
  destruct (getLock userID clk ws) as [[lock ws1] t].
  destruct (wallets ws !! userID); [|left; exact Ht].
  right. eexists. split; reflexivity.
Qed.

(** A call logs at most one transaction, under the id of its clock. *)
Lemma exec_log (c : call) (clk : Clock) (ws : WalletService) :
  transactions (final (exec c clk ws)) = transactions ws \/
  exists tx, transactions (final (exec c clk ws)) = transactions ws ++ [tx] /\
             ID tx = txid clk.
Proof.
  destruct c; unfold exec.
  - left. unfold_M. rewrite CreateUser_run.
    destruct (users ws !! userID); reflexivity.
  - unfold Deposit. destruct (NewFromFloat amount) as [d|];
      [|left; reflexivity].
    pose proof (DepositDecimal_log userID d description clk ws) as H.
    unfold_M. destruct (DepositDecimal userID d description clk ws) as [[? ?] ?].
    exact H.
  - pose proof (DepositDecimal_log userID amount description clk ws) as H.
    unfold_M.
    destruct (DepositDecimal userID amount description clk ws) as [[? ?] ?].
    exact H.
  - rewrite Withdraw_run.
    destruct (NewFromFloat amount) as [d|]; [|left; reflexivity].
    destruct (LessThanOrEqual d Zero); [left; reflexivity|].
    destruct (getLock_frame userID clk ws) as (_ & _ & Ht & _).
    destruct (getLock userID clk ws) as [[lock ws1] t].
    destruct (wallets ws !! userID) as [w|]; [|left; exact Ht].
    destruct (LessThan (Balance w) d); [left; exact Ht|].
    right. eexists. split; reflexivity.
  - rewrite Transfer_run.
    destruct (NewFromFloat amount) as [d|]; [|left; reflexivity].
    destruct (LessThanOrEqual d Zero); [left; reflexivity|].
    destruct (String.eqb fromUserID toUserID); [left; reflexivity|].
    destruct (wallets ws !! fromUserID) as [wf|]; [|left; reflexivity].
    destruct (wallets ws !! toUserID) as [wt|]; [|left; reflexivity].
    destruct (getOrderedLocks_sorted fromUserID toUserID clk ws)
      as (l1 & l2 & ws1 & Hrun & _ & _ & _ & _ & Ht).
    rewrite Hrun.
    destruct (LessThan (Balance wf) d); [left; exact Ht|].
    right. eexists. split; reflexivity.
Qed.

(** Where the clock never reads the same nanosecond twice, the ids of the
    log are pairwise different: the collisions come from the clock alone. *)
Lemma run_ids_distinct (cs : list (Clock * call)) (ws : WalletService) :
  NoDup (map (λ p, UnixNano p.1) cs) ->
  NoDup (map ID (transactions ws)) ->
  (forall clk c, In (clk, c) cs -> ~ In (txid clk) (map ID (transactions ws))) ->
  NoDup (map ID (transactions (run cs ws))).
Proof.
  revert ws. induction cs as [|[clk c] cs IH]; intros ws Hclk Hnd Hfresh;
    cbn [run]; [exact Hnd|].
  cbn [map fst] in Hclk. apply NoDup_cons in Hclk. destruct Hclk as [Hnew Hclk].
  assert (Hrest : forall clk' c', In (clk', c') cs -> txid clk' <> txid clk).
  { intros clk' c' Hin Heq. apply txid_inj in Heq. apply Hnew.
    apply list_elem_of_In. rewrite <- Heq.
    apply (in_map (λ p : Clock * call, UnixNano p.1) _ (clk', c')). exact Hin. }
  destruct (exec_log c clk ws) as [Hsame|(tx & Hsnoc & Hid)].
  - apply IH; rewrite ?Hsame; try assumption.
    intros clk' c' Hin. apply (Hfresh clk' c'). right. exact Hin.
  - apply IH; rewrite ?Hsnoc, ?map_app; cbn [map]; rewrite ?Hid.
    + exact Hclk.
    + apply NoDup_app. split; [exact Hnd|]. split; [|apply NoDup_singleton].
      intros id Hin Hin'. apply list_elem_of_In in Hin.
      apply list_elem_of_In in Hin'. destruct Hin' as [<-|[]].
      apply (Hfresh clk c); [left; reflexivity|exact Hin].
    + intros clk' c' Hin Hmem. apply in_app_or in Hmem.
      destruct Hmem as [Hold|[Heq|[]]].
      * apply (Hfresh clk' c'); [right; exact Hin|exact Hold].
      * apply (Hrest clk' c' Hin). symmetry. exact Heq.
Qed.

Lemma distinct_nanoseconds_distinct_ids (cs : list (Clock * call)) :
  NoDup (map (λ p, UnixNano p.1) cs) ->
  NoDup (map ID (transactions (run cs NewWalletService))).
Proof.
  intros Hclk. apply run_ids_distinct; [exact Hclk|constructor|].
  intros clk c _ [].
Qed.

(** * Further properties of the service *)

Lemma exec_run (c : call) (clk : Clock) (ws : WalletService) :
  exec c clk ws =
  match c with
  | CallCreateUser userID name email =>
      let '(err, ws', t) := CreateUser userID name email clk ws in
      (Returns err, ws', t)
  | CallDeposit userID amount description =>
      Deposit userID amount description clk ws
  | CallDepositDecimal userID amount description =>
      let '(err, ws', t) := DepositDecimal userID amount description clk ws in
      (Returns err, ws', t)
  | CallWithdraw userID amount description =>
      Withdraw userID amount description clk ws
  | CallTransfer fromUserID toUserID amount description =>
      Transfer fromUserID toUserID amount description clk ws
  end.
Proof.
  destruct c; unfold exec; try reflexivity; unfold_M.
  - destruct (CreateUser userID name email clk ws) as [[? ?] ?].
    rewrite app_nil_r. reflexivity.
  - destruct (DepositDecimal userID amount description clk ws) as [[? ?] ?].
    rewrite app_nil_r. reflexivity.
Qed.

(** ** All or nothing *)

Lemma DepositDecimal_failed (userID : string) (amount : Decimal)
    (description : string) (clk : Clock) (ws : WalletService) :
  retval (DepositDecimal userID amount description clk ws) <> None ->
  let ws' := final (DepositDecimal userID amount description clk ws) in
  users ws' = users ws /\ wallets ws' = wallets ws /\
  transactions ws' = transactions ws.
Proof.
  rewrite DepositDecimal_run.
  destruct (LessThanOrEqual amount Zero); [intros _; cbn; auto|].
  name_getLock userID clk ws lock ws1.
  destruct (wallets ws !! userID); unfold retval, final; cbn [fst snd].
  - intros H. contradiction.
  - intros _. auto.
Qed.

(** X1: a call that does not return [nil] (it returns an error, or panics in
    the conversion of the amount) leaves the users, the wallets with their
    balances and the log exactly as they were. *)
Theorem failed_call_changes_nothing (c : call) (clk : Clock)
    (ws : WalletService) :
  retval (exec c clk ws) <> Returns None ->
  users (final (exec c clk ws)) = users ws /\
  wallets (final (exec c clk ws)) = wallets ws /\
  transactions (final (exec c clk ws)) = transactions ws.
Proof.
  rewrite exec_run. destruct c.
  - rewrite CreateUser_run. destruct (users ws !! userID);
      unfold retval, final; cbn [fst snd]; [auto|intros H; contradiction].
  - rewrite Deposit_run. destruct (NewFromFloat amount) as [d|];
      [|cbn; auto].
    pose proof (DepositDecimal_failed userID d description clk ws) as H.
    destruct (DepositDecimal userID d description clk ws) as [[err ws'] t].
    unfold retval, final in *; cbn [fst snd] in *.
    intros Hne. apply H. congruence.
  - pose proof (DepositDecimal_failed userID amount description clk ws) as H.
    destruct (DepositDecimal userID amount description clk ws)
      as [[err ws'] t].
    unfold retval, final in *; cbn [fst snd] in *.
    intros Hne. apply H. congruence.
  - rewrite Withdraw_run. destruct (NewFromFloat amount) as [d|];
      [|cbn; auto].
    destruct (LessThanOrEqual d Zero); [cbn; auto|].
    name_getLock userID clk ws lock ws1.
    destruct (wallets ws !! userID) as [w|];
      [|unfold retval, final; cbn [fst snd]; auto].
    destruct (LessThan (Balance w) d); unfold retval, final; cbn [fst snd];
      [auto|intros H; contradiction].
  - rewrite Transfer_run. destruct (NewFromFloat amount) as [d|];
      [|cbn; auto].
    destruct (LessThanOrEqual d Zero); [cbn; auto|].
    destruct (String.eqb fromUserID toUserID); [cbn; auto|].
    destruct (wallets ws !! fromUserID) as [wf|]; [|cbn; auto].
    destruct (wallets ws !! toUserID) as [wt|]; [|cbn; auto].
    destruct (getOrderedLocks_sorted fromUserID toUserID clk ws)
      as (l1 & l2 & ws1 & Hrun & _ & _ & Hu & Hw & Ht).
    rewrite Hrun.
    destruct (LessThan (Balance wf) d); unfold retval, final; cbn [fst snd];
      [auto|intros H; contradiction].
Qed.

Lemma failed_call_changes_nothing_witness :
  users (final (exec (CallWithdraw "A" (Finite (New 50 0)) "memo") noon poor))
  = users poor /\
  wallets (final (exec (CallWithdraw "A" (Finite (New 50 0)) "memo") noon
                    poor))
  = wallets poor /\
  transactions (final (exec (CallWithdraw "A" (Finite (New 50 0)) "memo")
                         noon poor))
  = transactions poor.
Proof.
  apply (failed_call_changes_nothing
           (CallWithdraw "A" (Finite (New 50 0)) "memo") noon poor).
  vm_compute. discriminate.
Defined.

(** ** The log only grows *)

(** X2: the log is append-only: over any list of calls, from any state, the
    log afterwards is the log before followed by at most one new entry per
    call; no entry is changed, moved or removed. *)
Theorem log_is_append_only (cs : list (Clock * call)) (ws : WalletService) :
  exists added : list Transaction,
    transactions (run cs ws) = transactions ws ++ added /\
    (length added <= length cs)%nat.
Proof.
  revert ws. induction cs as [|[clk c] cs IH]; intros ws; cbn [run].
  - exists []. rewrite app_nil_r. split; [reflexivity|cbn; lia].
  - destruct (IH (final (exec c clk ws))) as (added & Heq & Hlen).
    destruct (exec_log c clk ws) as [Hsame|(tx & Hsnoc & _)].
    + exists added. rewrite Heq, Hsame. split; [reflexivity|cbn; lia].
    + exists (tx :: added). rewrite Heq, Hsnoc, <- app_assoc.
      split; [reflexivity|cbn; lia].
Qed.

(** ** Accounts stay *)

Lemma transition_keeps_user (ws ws' : WalletService) (id : string) (u : User) :
  transition ws ws' -> users ws !! id = Some u -> users ws' !! id = Some u.
Proof.
  intros [Hu _ _|userID name email Hfresh Hu _ _|? ? ? _ _ _ _ _ Hu _ _
         |? ? ? _ _ _ _ _ Hu _ _|? ? ? ? ? _ _ _ _ _ _ _ _ Hu _ _] Hid;
    rewrite Hu; try exact Hid.
  rewrite lookup_insert_ne; [exact Hid|]. intros ->. congruence.
Qed.

(** X3: a registered user is never removed and never changed: whatever calls
    follow, the users map keeps the record (id, name, email) that
    [CreateUser] stored. *)
Theorem users_are_permanent (cs : list (Clock * call)) (ws : WalletService)
    (id : string) (u : User) :
  users ws !! id = Some u -> users (run cs ws) !! id = Some u.
Proof.
  revert ws. induction cs as [|[clk c] cs IH]; intros ws Hid; cbn [run].
  - exact Hid.
  - apply IH. eapply transition_keeps_user; [apply exec_transition|exact Hid].
Qed.

Lemma users_are_permanent_witness :
  users (run [(after 4000, CallCreateUser "A" "Mallory" "m@example.com");
              (after 5000, CallWithdraw "A" (Finite (New 1 0)) "memo")] demo)
  !! "A"
  = Some {| User_ID := "A"; Name := "Alice"; Email := "alice@example.com" |}.
Proof.
  apply (users_are_permanent
           [(after 4000, CallCreateUser "A" "Mallory" "m@example.com");
            (after 5000, CallWithdraw "A" (Finite (New 1 0)) "memo")]
           demo "A").
  vm_compute. reflexivity.
Defined.

(** ** Balances *)

(** X4: no balance is ever negative: after every run from a fresh service
    the balance [GetBalanceDecimal] reports for any id is at least zero. *)
Theorem balances_never_negative (cs : list (Clock * call)) (id : string) :
  (0 <= dval (balance (run cs NewWalletService) id))%Q.
Proof.
  rewrite balance_lookup.
  destruct (wallets (run cs NewWalletService) !! id) as [w|] eqn:Hw.
  - exact (inv_nonneg _ (run_from_new_inv cs) id w Hw).
  - rewrite dval_Zero. apply Qle_refl.
Qed.

(** ** What a call may touch *)

Lemma positive_amount (d : Decimal) :
  LessThanOrEqual d Zero = false -> (0 < dval d)%Q.
Proof. intros H. apply LessThanOrEqual_false in H. exact H. Qed.

(** A call changes nothing, or registers the user it names, or updates
    wallets it names and logs one well-formed entry between accounts it
    names. *)
Lemma exec_effect (c : call) (clk : Clock) (ws : WalletService) :
  let ws' := final (exec c clk ws) in
  (users ws' = users ws /\ wallets ws' = wallets ws /\
   transactions ws' = transactions ws) \/
  (exists userID name email,
     c = CallCreateUser userID name email /\
     users ws !! userID = None /\
     users ws' = <[userID := {| User_ID := userID; Name := name;
                                Email := email |}]> (users ws) /\
     wallets ws' = <[userID := {| UserID := userID; Balance := New 0 0 |}]>
                     (wallets ws) /\
     transactions ws' = transactions ws) \/
  (exists tx,
     transactions ws' = transactions ws ++ [tx] /\
     users ws' = users ws /\
     well_formed tx /\
     names c (FromUserID tx) = true /\
     names c (ToUserID tx) = true /\
     is_Some (wallets ws !! FromUserID tx) /\
     is_Some (wallets ws !! ToUserID tx) /\
     (forall id, names c id = false -> wallets ws' !! id = wallets ws !! id)).
Proof.
  assert (Hdep : forall userID d description,
    let r := DepositDecimal userID d description clk ws in
    (users (final r) = users ws /\ wallets (final r) = wallets ws /\
     transactions (final r) = transactions ws) \/
    (exists tx,
       transactions (final r) = transactions ws ++ [tx] /\
       users (final r) = users ws /\
       well_formed tx /\
       String.eqb userID (FromUserID tx) = true /\
       String.eqb userID (ToUserID tx) = true /\
       is_Some (wallets ws !! FromUserID tx) /\
       is_Some (wallets ws !! ToUserID tx) /\
       (forall id, String.eqb userID id = false ->
                   wallets (final r) !! id = wallets ws !! id))).
  { intros userID d description. cbv zeta. rewrite DepositDecimal_run.
    destruct (LessThanOrEqual d Zero) eqn:Hpos; [left; cbn; auto|].
    name_getLock userID clk ws lock ws1.
    destruct (wallets ws !! userID) as [w|] eqn:Hw;
      unfold final; cbn [fst snd]; [|left; auto].
    right. eexists. cbn [transactions users wallets].
    split; [reflexivity|]. split; [assumption|].
    split; [split; [apply positive_amount, Hpos|left; split; [left|];
                    reflexivity]|].
    cbn [logged FromUserID ToUserID]. rewrite String.eqb_refl, Hw.
    repeat split; eauto.
    intros id Hid. apply String.eqb_neq in Hid.
    apply lookup_insert_ne. exact Hid. }
  cbv zeta. rewrite exec_run. destruct c.
  - rewrite CreateUser_run. destruct (users ws !! userID) eqn:E;
      unfold final; cbn [fst snd].
    + left. auto.
    + right; left. exists userID, name, email. auto.
  - rewrite Deposit_run. destruct (NewFromFloat amount) as [d|];
      [|left; cbn; auto].
    specialize (Hdep userID d description). cbv zeta in Hdep.
    destruct (DepositDecimal userID d description clk ws) as [[err ws'] t].
    destruct Hdep as [H|H]; [left|right; right]; exact H.
  - specialize (Hdep userID amount description). cbv zeta in Hdep.
    destruct (DepositDecimal userID amount description clk ws)
      as [[err ws'] t].
    destruct Hdep as [H|H]; [left|right; right]; exact H.
  - rewrite Withdraw_run. destruct (NewFromFloat amount) as [d|];
      [|left; cbn; auto].
    destruct (LessThanOrEqual d Zero) eqn:Hpos; [left; cbn; auto|].
    name_getLock userID clk ws lock ws1.
    destruct (wallets ws !! userID) as [w|] eqn:Hw;
      [|left; unfold final; cbn [fst snd]; auto].
    destruct (LessThan (Balance w) d); unfold final; cbn [fst snd];
      [left; auto|].
    right; right. eexists. cbn [transactions users wallets names].
    split; [reflexivity|]. split; [assumption|].
    split; [split; [apply positive_amount, Hpos|left; split; [right|];
                    reflexivity]|].
    cbn [logged FromUserID ToUserID]. rewrite String.eqb_refl, Hw.
    repeat split; eauto.
    intros id Hid. apply String.eqb_neq in Hid.
    apply lookup_insert_ne. exact Hid.
  - rewrite Transfer_run. destruct (NewFromFloat amount) as [d|];
      [|left; cbn; auto].
    destruct (LessThanOrEqual d Zero) eqn:Hpos; [left; cbn; auto|].
    destruct (String.eqb_spec fromUserID toUserID) as [Heq|Hne];
      [left; cbn; auto|].
    destruct (wallets ws !! fromUserID) as [wf|] eqn:Hf; [|left; cbn; auto].
    destruct (wallets ws !! toUserID) as [wt|] eqn:Hto; [|left; cbn; auto].
    destruct (getOrderedLocks_sorted fromUserID toUserID clk ws)
      as (l1 & l2 & ws1 & Hrun & _ & _ & Hu & Hw & Ht).
    rewrite Hrun.
    destruct (LessThan (Balance wf) d); unfold final; cbn [fst snd];
      [left; auto|].
    right; right. eexists. cbn [transactions users wallets names].
    split; [reflexivity|]. split; [assumption|].
    split; [split; [apply positive_amount, Hpos|right; split;
                    [reflexivity|exact Hne]]|].
    cbn [logged FromUserID ToUserID].
    rewrite !String.eqb_refl, Bool.orb_true_r, Hf, Hto.
    repeat split; eauto.
    intros id Hid. apply Bool.orb_false_iff in Hid. destruct Hid as [H1 H2].
    apply String.eqb_neq in H1, H2.
    rewrite !lookup_insert_ne by assumption. reflexivity.
Qed.

(** X5: every entry of the log of a run has a strictly positive amount and
    names registered accounts; a deposit or a withdrawal names one account
    as source and destination, a transfer two different accounts. *)
Theorem log_entries_well_formed (cs : list (Clock * call)) :
  Forall (λ tx, well_formed tx /\
                is_Some (users (run cs NewWalletService) !! FromUserID tx) /\
                is_Some (users (run cs NewWalletService) !! ToUserID tx))
         (transactions (run cs NewWalletService)).
Proof.
  assert (Hwf : forall cs ws, Forall well_formed (transactions ws) ->
                              Forall well_formed (transactions (run cs ws))).
  { clear cs. induction cs as [|[clk c] cs IH]; intros ws H; cbn [run];
      [exact H|].
    apply IH.
    destruct (exec_effect c clk ws)
      as [(_ & _ & Ht)|[(? & ? & ? & _ & _ & _ & _ & Ht)
                       |(tx & Ht & _ & Htx & _)]]; rewrite Ht; try exact H.
    apply Forall_app. split; [exact H|]. constructor; [exact Htx|constructor]. }
  pose proof (run_from_new_inv cs) as Hinv.
  apply Forall_forall. intros tx Hin. apply list_elem_of_In in Hin.
  split.
  - specialize (Hwf cs NewWalletService (Forall_nil_2 _)).
    rewrite Forall_forall in Hwf. apply Hwf. apply list_elem_of_In. exact Hin.
  - destruct (inv_log_ids _ Hinv tx Hin) as [Hf Hto].
    rewrite <- !elem_of_dom in *. rewrite (inv_dom _ Hinv). auto.
Qed.

Lemma history_retval (id : string) (clk : Clock) (ws : WalletService) :
  retval (GetTransactionHistory id clk ws)
  = match users ws !! id with
    | None => ([], Some ErrUserNotFound)
    | Some _ => (List.filter (involves id) (transactions ws), None)
    end.
Proof.
  rewrite GetTransactionHistory_run, collectHistory_filter.
  destruct (users ws !! id); reflexivity.
Qed.

(** X7: a call leaves alone every account it does not name: for such an id
    the balance, the registration and the transaction history are the same
    after the call as before. *)
Theorem unnamed_accounts_untouched (c : call) (clk clk' : Clock)
    (ws : WalletService) (id : string) :
  names c id = false ->
  balance (final (exec c clk ws)) id = balance ws id /\
  users (final (exec c clk ws)) !! id = users ws !! id /\
  retval (GetTransactionHistory id clk' (final (exec c clk ws)))
  = retval (GetTransactionHistory id clk' ws).
Proof.
  intros Hid. rewrite !balance_lookup, !history_retval.
  destruct (exec_effect c clk ws)
    as [(Hu & Hw & Ht)
       |[(u & n & e & -> & _ & Hu & Hw & Ht)
        |(tx & Ht & Hu & _ & Hf & Hto & _ & _ & Hw)]].
  - rewrite Hu, Hw, Ht. auto.
  - cbn [names] in Hid. apply String.eqb_neq in Hid.
    rewrite Hu, Hw, Ht, !lookup_insert_ne by exact Hid. auto.
  - rewrite Hu, (Hw id Hid), Ht. split; [reflexivity|]. split; [reflexivity|].
    rewrite List.filter_app. cbn [List.filter].
    assert (Hno : involves id tx = false).
    { unfold involves. apply Bool.orb_false_iff. split; apply String.eqb_neq;
        intros Heq; rewrite Heq in *; congruence. }
    rewrite Hno, app_nil_r. reflexivity.
Qed.

Lemma unnamed_accounts_untouched_witness :
  balance (final (exec (CallDeposit "A" (Finite (New 5 0)) "memo") noon demo))
          "B"
  = balance demo "B" /\
  users (final (exec (CallDeposit "A" (Finite (New 5 0)) "memo") noon demo))
  !! "B" = users demo !! "B" /\
  retval (GetTransactionHistory "B" noon
            (final (exec (CallDeposit "A" (Finite (New 5 0)) "memo") noon
                      demo)))
  = retval (GetTransactionHistory "B" noon demo).
Proof.
  apply (unnamed_accounts_untouched
           (CallDeposit "A" (Finite (New 5 0)) "memo") noon noon demo "B").
  reflexivity.
Defined.

(** ** Records and their keys *)

Lemma transition_keys (ws ws' : WalletService) :
  transition ws ws' ->
  (forall id u, users ws !! id = Some u -> User_ID u = id) ->
  (forall id w, wallets ws !! id = Some w -> UserID w = id) ->
  (forall id u, users ws' !! id = Some u -> User_ID u = id) /\
  (forall id w, wallets ws' !! id = Some w -> UserID w = id).
Proof.
  intros Htr HU HW.
  destruct Htr as [Hu Hw _|userID name email _ Hu Hw _
                  |userID w tx Hl _ _ _ _ Hu Hw _
                  |userID w tx Hl _ _ _ _ Hu Hw _
                  |fromUserID toUserID wf wt tx _ Hlf Hlt _ _ _ _ _ Hu Hw _];
    rewrite Hu, Hw; split; try exact HU; try exact HW; intros id x.
  - rewrite lookup_insert. case_decide; [intros [= <-]; assumption|apply HU].
  - rewrite lookup_insert. case_decide; [intros [= <-]; assumption|apply HW].
  - rewrite lookup_insert. case_decide as Hk; [|apply HW].
    intros [= <-]. subst id. exact (HW _ _ Hl).
  - rewrite lookup_insert. case_decide as Hk; [|apply HW].
    intros [= <-]. subst id. exact (HW _ _ Hl).
  - rewrite lookup_insert. case_decide as Hk;
      [intros [= <-]; subst id; exact (HW _ _ Hlt)|].
    rewrite lookup_insert. case_decide as Hk'; [|apply HW].
    intros [= <-]. subst id. exact (HW _ _ Hlf).
Qed.

Lemma run_keys (cs : list (Clock * call)) :
  (forall id u, users (run cs NewWalletService) !! id = Some u ->
                User_ID u = id) /\
  (forall id w, wallets (run cs NewWalletService) !! id = Some w ->
                UserID w = id).
Proof.
  assert (H : forall cs ws,
    (forall id u, users ws !! id = Some u -> User_ID u = id) ->
    (forall id w, wallets ws !! id = Some w -> UserID w = id) ->
    (forall id u, users (run cs ws) !! id = Some u -> User_ID u = id) /\
    (forall id w, wallets (run cs ws) !! id = Some w -> UserID w = id)).
  { clear. induction cs as [|[clk c] cs IH]; intros ws HU HW; cbn [run];
      [auto|].
    destruct (transition_keys _ _ (exec_transition c clk ws) HU HW).
    apply IH; assumption. }
  apply H; intros k x Hk; cbn in Hk; rewrite lookup_empty in Hk; discriminate.
Qed.

(** X6: in every state of a run the record stored under an id carries that
    id: [users[id].ID == id] and [wallets[id].UserID == id]. *)
Theorem records_carry_their_key (cs : list (Clock * call)) (id : string) :
  match users (run cs NewWalletService) !! id with
  | Some u => User_ID u = id
  | None => True
  end /\
  match wallets (run cs NewWalletService) !! id with
  | Some w => UserID w = id
  | None => True
  end.
Proof.
  destruct (run_keys cs) as [HU HW]. split.
  - destruct (users (run cs NewWalletService) !! id) eqn:E; [|exact I].
    exact (HU _ _ E).
  - destruct (wallets (run cs NewWalletService) !! id) eqn:E; [|exact I].
    exact (HW _ _ E).
Qed.

(** ** What each operation returns *)

(** X8: [DepositDecimal] returns [ErrInvalidAmount] when the amount is not
    positive, else [ErrUserNotFound] when the id has no wallet, else [nil];
    in the last case the balance of the id has grown by exactly the amount
    and the log has gained one deposit entry from the id to itself that
    carries the amount, the description and the clock's timestamp. *)
Theorem DepositDecimal_outcome (userID : string) (amount : Decimal)
    (description : string) (clk : Clock) (ws : WalletService) :
  let r := DepositDecimal userID amount description clk ws in
  ((dval amount <= 0)%Q /\ r = (Some ErrInvalidAmount, ws, [])) \/
  ((0 < dval amount)%Q /\ wallets ws !! userID = None /\
   retval r = Some ErrUserNotFound) \/
  ((0 < dval amount)%Q /\ is_Some (wallets ws !! userID) /\
   retval r = None /\
   (dval (balance (final r) userID)
    == dval (balance ws userID) + dval amount)%Q /\
   transactions (final r)
   = transactions ws ++ [logged clk userID userID amount TransactionDeposit
                           description]).
Proof.
  cbv zeta. rewrite DepositDecimal_run.
  destruct (LessThanOrEqual amount Zero) eqn:Hpos.
  { left. apply LessThanOrEqual_spec in Hpos. auto. }
  apply positive_amount in Hpos. right.
  name_getLock userID clk ws lock ws1. rewrite !balance_lookup.
  destruct (wallets ws !! userID) as [w|] eqn:Hw;
    unfold retval, final; cbn [fst snd]; [right|left; auto].
  split; [exact Hpos|]. split; [eauto|]. split; [reflexivity|].
  cbn [wallets transactions].
  rewrite lookup_insert_eq. cbn [setBalance Balance].
  split; [apply dval_Add|reflexivity].
Qed.

(** X9: [Withdraw] panics on NaN and the infinities; otherwise it returns
    [ErrInvalidAmount] when the amount is not positive, else
    [ErrUserNotFound] when the id has no wallet, else
    [ErrInsufficientBalance] when the balance is below the amount, else
    [nil]; in the last case (the amount may equal the balance) the balance
    has shrunk by exactly the amount and the log has gained one withdraw
    entry. *)
Theorem Withdraw_outcome (userID : string) (amount : float64)
    (description : string) (clk : Clock) (ws : WalletService) :
  let r := Withdraw userID amount description clk ws in
  match amount with
  | NaN | Inf _ => r = (Panics, ws, [])
  | Finite d =>
      ((dval d <= 0)%Q /\ r = (Returns (Some ErrInvalidAmount), ws, [])) \/
      ((0 < dval d)%Q /\ wallets ws !! userID = None /\
       retval r = Returns (Some ErrUserNotFound)) \/
      ((0 < dval d)%Q /\ is_Some (wallets ws !! userID) /\
       (dval (balance ws userID) < dval d)%Q /\
       retval r = Returns (Some ErrInsufficientBalance)) \/
      ((0 < dval d)%Q /\ is_Some (wallets ws !! userID) /\
       (dval d <= dval (balance ws userID))%Q /\
       retval r = Returns None /\
       (dval (balance (final r) userID)
        == dval (balance ws userID) - dval d)%Q /\
       transactions (final r)
       = transactions ws ++ [logged clk userID userID d TransactionWithdraw
                               description])
  end.
Proof.
  cbv zeta. rewrite Withdraw_run.
  destruct amount as [| |d]; cbn [NewFromFloat]; try reflexivity.
  destruct (LessThanOrEqual d Zero) eqn:Hpos.
  { left. apply LessThanOrEqual_spec in Hpos. auto. }
  apply positive_amount in Hpos. right.
  name_getLock userID clk ws lock ws1. rewrite !balance_lookup.
  destruct (wallets ws !! userID) as [w|] eqn:Hw;
    [right|left; unfold retval; cbn [fst snd]; auto].
  destruct (LessThan (Balance w) d) eqn:Hlt;
    unfold retval, final; cbn [fst snd]; [left|right].
  - apply LessThan_spec in Hlt. eauto 6.
  - apply LessThan_false in Hlt.
    split; [exact Hpos|]. split; [eauto|]. split; [exact Hlt|].
    split; [reflexivity|].
    cbn [wallets transactions].
    rewrite lookup_insert_eq. cbn [setBalance Balance].
    split; [apply dval_Sub|reflexivity].
Qed.



(** X11: [Transfer] of a decimal amount returns [nil] exactly when the
    amount is positive, the two ids differ, both have a wallet, and the
    amount does not exceed the balance of the source. *)
Theorem Transfer_succeeds_iff (fromUserID toUserID : string) (d : Decimal)
    (description : string) (clk : Clock) (ws : WalletService) :
  retval (Transfer fromUserID toUserID (Finite d) description clk ws)
  = Returns None
  <->
  (0 < dval d)%Q /\ fromUserID <> toUserID /\
  is_Some (wallets ws !! fromUserID) /\ is_Some (wallets ws !! toUserID) /\
  (dval d <= dval (balance ws fromUserID))%Q.
Proof.
  rewrite Transfer_run, balance_lookup. cbn [NewFromFloat].
  destruct (LessThanOrEqual d Zero) eqn:Hpos.
  { apply LessThanOrEqual_spec in Hpos. rewrite dval_Zero in Hpos.
    split; [discriminate|]. intros (H & _). lra. }
  apply positive_amount in Hpos.
  destruct (String.eqb_spec fromUserID toUserID) as [Heq|Hne].
  { split; [discriminate|]. intros (_ & H & _). contradiction. }
  destruct (wallets ws !! fromUserID) as [wf|] eqn:Hf.
  2:{ split; [discriminate|]. intros (_ & _ & [? H] & _). discriminate. }
  destruct (wallets ws !! toUserID) as [wt|] eqn:Hto.
  2:{ split; [discriminate|]. intros (_ & _ & _ & [? H] & _). discriminate. }
  destruct (getOrderedLocks_sorted fromUserID toUserID clk ws)
    as (l1 & l2 & ws1 & Hrun & _).
  rewrite Hrun.
  destruct (LessThan (Balance wf) d) eqn:Hlt; unfold retval; cbn [fst snd].
  - apply LessThan_spec in Hlt. split; [discriminate|].
    intros (_ & _ & _ & _ & H). lra.
  - apply LessThan_false in Hlt. split; [|reflexivity]. intros _. eauto 6.
Qed.

(** ** The lock table *)

Lemma getLock_loadOrStore (userID : string) (clk : Clock)
    (ws : WalletService) :
  userLocks (final (getLock userID clk ws))
  = loadOrStore userID (userLocks ws).
Proof.
  unfold getLock, loadOrStore, final.
  destruct (userLocks ws !! userID); reflexivity.
Qed.

Lemma getOrderedLocks_loadOrStore (userID1 userID2 : string) (clk : Clock)
    (ws : WalletService) :
  userLocks (final (getOrderedLocks userID1 userID2 clk ws))
  = loadOrStore userID2 (loadOrStore userID1 (userLocks ws)).
Proof.
  rewrite <- (getLock_loadOrStore userID1 clk ws).
  rewrite <- (getLock_loadOrStore userID2 clk (final (getLock userID1 clk ws))).
  unfold getOrderedLocks. unfold_M.
  destruct (getLock userID1 clk ws) as [[lock1 ws1] t1]. cbn [fst snd].
  destruct (getLock userID2 clk ws1) as [[lock2 ws2] t2]. cbn [fst snd].
  destruct (String.ltb userID1 userID2); reflexivity.
Qed.

Lemma loadOrStore_keeps (userID id : string) (lock : nat)
    (locks : gmap string nat) :
  locks !! id = Some lock -> loadOrStore userID locks !! id = Some lock.
Proof.
  intros H. unfold loadOrStore.
  destruct (locks !! userID) eqn:E; [exact H|].
  rewrite lookup_insert_ne; [exact H|]. intros ->. congruence.
Qed.

Lemma loadOrStore_ok (userID : string) (locks : gmap string nat) :
  lock_table_ok locks -> lock_table_ok (loadOrStore userID locks).
Proof.
  intros [Hlt Hinj]. unfold loadOrStore.
  destruct (locks !! userID) eqn:E; [split; assumption|].
  split.
  - intros id lock. rewrite map_size_insert_None by exact E.
    rewrite lookup_insert. case_decide.
    + intros [= <-]. lia.
    + intros H'. apply Hlt in H'. lia.
  - intros id id' lock. rewrite !lookup_insert.
    repeat case_decide; subst; try congruence.
    + intros [= <-] H'. apply Hlt in H'. lia.
    + intros H' [= <-]. apply Hlt in H'. lia.
    + apply Hinj.
Qed.

(** The lock table after a call is the table before, with [LoadOrStore]
    done for some ids. *)
Lemma exec_locks (c : call) (clk : Clock) (ws : WalletService) :
  exists ids : list string,
    userLocks (final (exec c clk ws))
    = fold_left (λ locks id, loadOrStore id locks) ids (userLocks ws).
Proof.
  assert (Hdep : forall userID d description,
    exists ids : list string,
      userLocks (final (DepositDecimal userID d description clk ws))
      = fold_left (λ locks id, loadOrStore id locks) ids (userLocks ws)).
  { intros userID d description. rewrite DepositDecimal_run.
    destruct (LessThanOrEqual d Zero); [exists []; reflexivity|].
    pose proof (getLock_loadOrStore userID clk ws) as Hl.
    destruct (getLock userID clk ws) as [[lock ws1] t].
    unfold final in *; cbn [fst snd] in *.
    exists [userID]. destruct (wallets ws !! userID); exact Hl. }
  rewrite exec_run. destruct c.
  - exists []. rewrite CreateUser_run.
    destruct (users ws !! userID); reflexivity.
  - rewrite Deposit_run. destruct (NewFromFloat amount) as [d|];
      [|exists []; reflexivity].
    destruct (Hdep userID d description) as [ids H]. exists ids.
    destruct (DepositDecimal userID d description clk ws) as [[? ?] ?].
    exact H.
  - destruct (Hdep userID amount description) as [ids H]. exists ids.
    destruct (DepositDecimal userID amount description clk ws) as [[? ?] ?].
    exact H.
  - rewrite Withdraw_run. destruct (NewFromFloat amount) as [d|];
      [|exists []; reflexivity].
    destruct (LessThanOrEqual d Zero); [exists []; reflexivity|].
    pose proof (getLock_loadOrStore userID clk ws) as Hl.
    destruct (getLock userID clk ws) as [[lock ws1] t].
    unfold final in *; cbn [fst snd] in *.
    exists [userID]. destruct (wallets ws !! userID) as [w|]; [|exact Hl].
    destruct (LessThan (Balance w) d); exact Hl.
  - rewrite Transfer_run. destruct (NewFromFloat amount) as [d|];
      [|exists []; reflexivity].
    destruct (LessThanOrEqual d Zero); [exists []; reflexivity|].
    destruct (String.eqb fromUserID toUserID); [exists []; reflexivity|].
    destruct (wallets ws !! fromUserID) as [wf|]; [|exists []; reflexivity].
    destruct (wallets ws !! toUserID) as [wt|]; [|exists []; reflexivity].
    pose proof (getOrderedLocks_loadOrStore fromUserID toUserID clk ws) as Hl.
    destruct (getOrderedLocks fromUserID toUserID clk ws)
      as [[[l1 l2] ws1] t].
    unfold final in *; cbn [fst snd] in *.
    exists [fromUserID; toUserID].
    destruct (LessThan (Balance wf) d); exact Hl.
Qed.

Lemma fold_loadOrStore_ok (ids : list string) (locks : gmap string nat) :
  lock_table_ok locks ->
  lock_table_ok (fold_left (λ locks id, loadOrStore id locks) ids locks).
Proof.
  revert locks. induction ids as [|id ids IH]; intros locks H; cbn;
    [exact H|].
  apply IH, loadOrStore_ok, H.
Qed.

Lemma fold_loadOrStore_keeps (ids : list string) (locks : gmap string nat)
    (id : string) (lock : nat) :
  locks !! id = Some lock ->
  fold_left (λ locks id, loadOrStore id locks) ids locks !! id = Some lock.
Proof.
  revert locks. induction ids as [|i ids IH]; intros locks H; cbn;
    [exact H|].
  apply IH, loadOrStore_keeps, H.
Qed.

Lemma run_locks_ok (cs : list (Clock * call)) (ws : WalletService) :
  lock_table_ok (userLocks ws) -> lock_table_ok (userLocks (run cs ws)).
Proof.
  revert ws. induction cs as [|[clk c] cs IH]; intros ws H; cbn [run];
    [exact H|].
  apply IH. destruct (exec_locks c clk ws) as [ids ->].
  apply fold_loadOrStore_ok, H.
Qed.

Lemma new_locks_ok : lock_table_ok (userLocks NewWalletService).
Proof.
  split; cbn; intros *; rewrite lookup_empty; discriminate.
Qed.

Lemma run_locks_keep (cs : list (Clock * call)) (ws : WalletService)
    (id : string) (lock : nat) :
  userLocks ws !! id = Some lock -> userLocks (run cs ws) !! id = Some lock.
Proof.
  revert ws. induction cs as [|[clk c] cs IH]; intros ws H; cbn [run];
    [exact H|].
  apply IH. destruct (exec_locks c clk ws) as [ids ->].
  apply fold_loadOrStore_keeps, H.
Qed.

(** X12: in every state of a run two different user ids never share a
    mutex of the lock manager. *)
Theorem one_mutex_per_user (cs : list (Clock * call)) (id id' : string)
    (lock lock' : nat) :
  id <> id' ->
  userLocks (run cs NewWalletService) !! id = Some lock ->
  userLocks (run cs NewWalletService) !! id' = Some lock' ->
  lock <> lock'.
Proof.
  destruct (run_locks_ok cs NewWalletService new_locks_ok) as [_ Hinj].
  intros Hne H H' ->. apply Hne. exact (Hinj _ _ _ H H').
Qed.

Lemma one_mutex_per_user_witness : 0%nat <> 1%nat.
Proof.
  apply (one_mutex_per_user demo_calls "A" "B" 0%nat 1%nat).
  - discriminate.
  - vm_compute. reflexivity.
  - vm_compute. reflexivity.
Defined.

(** X13: [getLock] hands out the same mutex for an id for ever: whatever
    calls are made after a first [getLock], a later [getLock] for the id
    returns the mutex the first one returned, and stores nothing. *)
Theorem same_lock_for_ever (userID : string) (clk clk' : Clock)
    (cs : list (Clock * call)) (ws : WalletService) :
  let first := getLock userID clk ws in
  let later := run cs (final first) in
  getLock userID clk' later = (retval first, later, []).
Proof.
  cbv zeta. apply getLock_known, run_locks_keep, getLock_lookup.
Qed.

(** X25: in every state of a run [getOrderedLocks] returns two different
    mutexes exactly when the two ids differ; called with one id twice it
    returns that id's mutex twice. *)
Theorem getOrderedLocks_distinct_iff (cs : list (Clock * call))
    (userID1 userID2 : string) (clk : Clock) :
  let r := getOrderedLocks userID1 userID2 clk (run cs NewWalletService) in
  (retval r).1 = (retval r).2 <-> userID1 = userID2.
Proof.
  cbv zeta. set (ws := run cs NewWalletService).
  pose proof (getOrderedLocks_loadOrStore userID1 userID2 clk ws) as Hl.
  destruct (getOrderedLocks_spec userID1 userID2 clk ws)
    as (lock1 & lock2 & ws1 & Hrun & H1 & H2 & _).
  rewrite Hrun in *. unfold final in Hl; unfold retval; cbn [fst snd] in *.
  assert (Hok : lock_table_ok (userLocks ws1)).
  { rewrite Hl. do 2 apply loadOrStore_ok.
    apply run_locks_ok, new_locks_ok. }
  destruct Hok as [_ Hinj].
  assert (Heq : lock1 = lock2 <-> userID1 = userID2).
  { split.
    - intros ->. exact (Hinj _ _ _ H1 H2).
    - intros ->. congruence. }
  destruct (String.ltb userID1 userID2); cbn [fst snd]; rewrite <- Heq;
    split; congruence.
Qed.

(** ** Lock discipline *)

Lemma GetAllUsers_run (clk : Clock) (ws : WalletService) :
  GetAllUsers clk ws
  = ((map_to_list (users ws)).*2, ws,
     [EvRLock ServiceMu; EvRUnlock ServiceMu]).
Proof.
  unfold GetAllUsers. unfold_M. cbn. f_equal. f_equal.
  assert (H : forall (entries : list (string * User)) (acc : list User),
    fold_left (λ users entry, users ++ [entry.2]) entries acc
    = acc ++ entries.*2).
  { induction entries as [|e es IH]; intros acc; cbn.
    - rewrite app_nil_r. reflexivity.
    - rewrite IH, <- app_assoc. reflexivity. }
  apply (H _ []).
Qed.

(** Finish a goal on [disciplined] after the trace has been evaluated. *)
Ltac solve_discipline :=
  cbn;
  repeat match goal with
         | H : _ !! _ = Some _ |- _ => rewrite H
         end;
  rewrite ?Nat.eqb_refl, ?String.eqb_refl; cbn;
  repeat match goal with
         | H : ?a <> ?b |- _ =>
             first [ rewrite (proj2 (Nat.eqb_neq a b) H)
                   | rewrite (proj2 (Nat.eqb_neq b a) (not_eq_sym H)) ]
         end;
  reflexivity.

Lemma DepositDecimal_disciplined (userID : string) (d : Decimal)
    (description : string) (clk : Clock) (ws : WalletService) :
  let r := DepositDecimal userID d description clk ws in
  disciplined (userLocks (final r)) [] (trace r) = true.
Proof.
  cbv zeta. rewrite DepositDecimal_run.
  destruct (LessThanOrEqual d Zero); [reflexivity|].
  pose proof (getLock_lookup userID clk ws) as Hl.
  destruct (getLock userID clk ws) as [[lock ws1] t].
  unfold final, retval in Hl; cbn [fst snd] in Hl.
  destruct (wallets ws !! userID); unfold final, trace; cbn [fst snd userLocks];
    solve_discipline.
Qed.

Lemma exec_disciplined (c : call) (clk : Clock) (ws : WalletService) :
  lock_table_ok (userLocks ws) ->
  disciplined (userLocks (final (exec c clk ws))) [] (trace (exec c clk ws))
  = true.
Proof.
  intros Hok. rewrite exec_run. destruct c.
  - rewrite CreateUser_run. destruct (users ws !! userID); reflexivity.
  - rewrite Deposit_run. destruct (NewFromFloat amount) as [d|];
      [|reflexivity].
    pose proof (DepositDecimal_disciplined userID d description clk ws) as H.
    destruct (DepositDecimal userID d description clk ws) as [[? ?] ?].
    exact H.
  - pose proof (DepositDecimal_disciplined userID amount description clk ws)
      as H.
    destruct (DepositDecimal userID amount description clk ws) as [[? ?] ?].
    exact H.
  - rewrite Withdraw_run. destruct (NewFromFloat amount) as [d|];
      [|reflexivity].
    destruct (LessThanOrEqual d Zero); [reflexivity|].
    pose proof (getLock_lookup userID clk ws) as Hl.
    destruct (getLock userID clk ws) as [[lock ws1] t].
    unfold final, retval in Hl; cbn [fst snd] in Hl.
    destruct (wallets ws !! userID) as [w|];
      [destruct (LessThan (Balance w) d)|];
      unfold final, trace; cbn [fst snd userLocks]; solve_discipline.
  - rewrite Transfer_run. destruct (NewFromFloat amount) as [d|];
      [|reflexivity].
    destruct (LessThanOrEqual d Zero); [reflexivity|].
    destruct (String.eqb_spec fromUserID toUserID) as [Heq|Hne];
      [reflexivity|].
    destruct (wallets ws !! fromUserID) as [wf|]; [|reflexivity].
    destruct (wallets ws !! toUserID) as [wt|]; [|reflexivity].
    pose proof (getOrderedLocks_loadOrStore fromUserID toUserID clk ws) as Hl.
    destruct (getOrderedLocks_spec fromUserID toUserID clk ws)
      as (lock1 & lock2 & ws1 & Hrun & H1 & H2 & _).
    rewrite Hrun in *. unfold final in Hl; cbn [fst snd] in Hl.
    assert (Hdiff : lock1 <> lock2).
    { intros ->. apply Hne.
      assert (Hok1 : lock_table_ok (userLocks ws1))
        by (rewrite Hl; do 2 apply loadOrStore_ok; exact Hok).
      destruct Hok1 as [_ Hinj]. eapply Hinj; eassumption. }
    clear Hl Hrun Hok.
    destruct (String.ltb fromUserID toUserID);
      destruct (LessThan (Balance wf) d);
      unfold final, trace; cbn [fst snd userLocks]; solve_discipline.
Qed.

(** X14: every call and every query made on a state of a run keeps the lock
    discipline: it never locks a mutex it already holds, it releases each
    mutex it acquired, last acquired first, and holds none when it returns
    (on the error paths too); it writes a balance only while it holds both
    the wallet's mutex and the user's mutex of the lock manager, and appends
    to the log only while it holds [ws.mu] exclusively. *)
Theorem lock_discipline_kept (cs : list (Clock * call)) (c : call)
    (id : string) (clk : Clock) :
  let ws := run cs NewWalletService in
  disciplined (userLocks (final (exec c clk ws))) [] (trace (exec c clk ws))
  = true /\
  disciplined (userLocks ws) [] (trace (GetBalanceDecimal id clk ws)) = true /\
  disciplined (userLocks ws) [] (trace (GetTransactionHistory id clk ws))
  = true /\
  disciplined (userLocks ws) [] (trace (GetAllUsers clk ws)) = true.
Proof.
  cbv zeta. split; [|split; [|split]].
  - apply exec_disciplined, run_locks_ok, new_locks_ok.
  - rewrite GetBalanceDecimal_run.
    destruct (wallets (run cs NewWalletService) !! id);
      unfold trace; cbn [snd]; solve_discipline.
  - rewrite GetTransactionHistory_run.
    destruct (users (run cs NewWalletService) !! id); reflexivity.
  - rewrite GetAllUsers_run. reflexivity.
Qed.

(** The checker rejects a trace that leaves a mutex held, one that writes a
    balance without the locks, and one that locks a held mutex. *)
Example undisciplined_traces :
  disciplined ∅ [] [EvLock ServiceMu] = false /\
  disciplined {["A" := 0%nat]} []
    [EvLock (WalletMu "A"); EvStoreBalance "A" Zero; EvUnlock (WalletMu "A")]
  = false /\
  disciplined ∅ []
    [EvLock (UserLock 0); EvLock (UserLock 0); EvUnlock (UserLock 0);
     EvUnlock (UserLock 0)]
  = false.
Proof. vm_compute. repeat split; reflexivity. Qed.

(** ** The order of [ws.mu] and the wallet mutexes *)

Ltac solve_nestings :=
  unfold service_under_wallet, trace; cbn [fst snd];
  cbn; rewrite ?String.eqb_refl, ?Nat.eqb_refl; cbn;
  rewrite ?String.eqb_refl, ?Nat.eqb_refl; cbn;
  try reflexivity.

Lemma DepositDecimal_nestings (userID : string) (d : Decimal)
    (description : string) (clk : Clock) (ws : WalletService) :
  service_under_wallet (trace (DepositDecimal userID d description clk ws))
  = false.
Proof.
  rewrite DepositDecimal_run.
  destruct (LessThanOrEqual d Zero); [reflexivity|].
  destruct (getLock userID clk ws) as [[lock ws1] t].
  destruct (wallets ws !! userID); solve_nestings.
Qed.

(** X15: [CreateUser], [Deposit], [DepositDecimal] and [Transfer] never
    acquire [ws.mu] while they hold a wallet's mutex: they release the
    wallet before they record the transaction. *)
Theorem service_lock_not_under_wallet_lock (c : call) (clk : Clock)
    (ws : WalletService) :
  match c with
  | CallWithdraw _ _ _ => True
  | _ => service_under_wallet (trace (exec c clk ws)) = false
  end.
Proof.
  rewrite exec_run. destruct c; [| | |exact I|].
  - rewrite CreateUser_run. destruct (users ws !! userID); reflexivity.
  - rewrite Deposit_run. destruct (NewFromFloat amount) as [d|];
      [|reflexivity].
    pose proof (DepositDecimal_nestings userID d description clk ws) as H.
    destruct (DepositDecimal userID d description clk ws) as [[? ?] ?].
    exact H.
  - pose proof (DepositDecimal_nestings userID amount description clk ws) as H.
    destruct (DepositDecimal userID amount description clk ws) as [[? ?] ?].
    exact H.
  - rewrite Transfer_run. destruct (NewFromFloat amount) as [d|];
      [|reflexivity].
    destruct (LessThanOrEqual d Zero); [reflexivity|].
    destruct (String.eqb fromUserID toUserID); [reflexivity|].
    destruct (wallets ws !! fromUserID) as [wf|]; [|reflexivity].
    destruct (wallets ws !! toUserID) as [wt|]; [|reflexivity].
    destruct (getOrderedLocks fromUserID toUserID clk ws)
      as [[[l1 l2] ws1] t].
    destruct (LessThan (Balance wf) d); solve_nestings.
Qed.

(** X16: [Withdraw] and [GetBalanceDecimal] take [ws.mu] and the wallet's
    mutex in opposite orders: a [Withdraw] that returns [nil] locks [ws.mu]
    (in [recordTransaction]) while it holds the wallet's mutex, and
    [GetBalanceDecimal] for the same id read-locks the wallet's mutex while
    it holds [ws.mu]. *)
Theorem withdraw_and_balance_query_nest_oppositely (userID : string)
    (amount : float64) (description : string) (clk clk' : Clock)
    (ws : WalletService) :
  retval (Withdraw userID amount description clk ws) = Returns None ->
  In (WalletMu userID, ServiceMu)
     (nestings [] (trace (Withdraw userID amount description clk ws))) /\
  In (ServiceMu, WalletMu userID)
     (nestings [] (trace (GetBalanceDecimal userID clk' ws))).
Proof.
  rewrite Withdraw_run, GetBalanceDecimal_run.
  destruct (NewFromFloat amount) as [d|]; [|discriminate].
  destruct (LessThanOrEqual d Zero); [discriminate|].
  destruct (getLock userID clk ws) as [[lock ws1] t].
  destruct (wallets ws !! userID) as [w|]; [|discriminate].
  destruct (LessThan (Balance w) d); [discriminate|].
  intros _. unfold trace; cbn [fst snd]. split.
  - cbn. auto 10.
  - cbn. auto.
Qed.

Lemma withdraw_and_balance_query_nest_oppositely_witness :
  In (WalletMu "A", ServiceMu)
     (nestings [] (trace (Withdraw "A" (Finite (New 1 0)) "memo" noon demo)))
  /\
  In (ServiceMu, WalletMu "A")
     (nestings [] (trace (GetBalanceDecimal "A" noon demo))).
Proof.
  apply (withdraw_and_balance_query_nest_oppositely "A" (Finite (New 1 0))
           "memo" noon noon demo).
  vm_compute. reflexivity.
Defined.

(** ** The total of all balances *)

Section Totals.

Local Open Scope Q_scope.

Lemma sumBalances_perm (l l' : list (string * Wallet)) :
  l ≡ₚ l' -> sumBalances l == sumBalances l'.
Proof.
  induction 1 as [|x l l' _ IH|x y l|l l' l'' _ IH1 _ IH2]; cbn [sumBalances].
  - reflexivity.
  - rewrite IH. reflexivity.
  - ring.
  - rewrite IH1. exact IH2.
Qed.

Lemma total_insert_new (m : gmap string Wallet) (k : string) (w : Wallet) :
  m !! k = None ->
  sumBalances (map_to_list (<[k := w]> m))
  == dval (Balance w) + sumBalances (map_to_list m).
Proof.
  intros H. rewrite (sumBalances_perm _ _ (map_to_list_insert m k w H)).
  reflexivity.
Qed.

Lemma total_insert_old (m : gmap string Wallet) (k : string) (w0 w : Wallet) :
  m !! k = Some w0 ->
  sumBalances (map_to_list (<[k := w]> m))
  == sumBalances (map_to_list m) - dval (Balance w0) + dval (Balance w).
Proof.
  intros H. rewrite <- (insert_delete_eq m k w).
  rewrite total_insert_new by apply lookup_delete_eq.
  rewrite <- (sumBalances_perm _ _ (map_to_list_delete m k w0 H)).
  cbn [sumBalances snd]. ring.
Qed.

Lemma sumWhere_snoc (P : Transaction -> bool) (txs : list Transaction)
    (tx : Transaction) :
  sumWhere P (txs ++ [tx])
  == sumWhere P txs + (if P tx then dval (Amount tx) else 0).
Proof.
  rewrite sumWhere_app. unfold sumWhere at 2. cbn [List.filter].
  destruct (P tx); cbn [sumAmounts]; ring.
Qed.

(** Decide the comparisons of transaction types in the goal. *)
Ltac decide_types :=
  repeat match goal with
         | |- context [String.eqb ?a ?b] =>
             let v := eval vm_compute in (String.eqb a b) in
             match v with
             | true => change (String.eqb a b) with true
             | false => change (String.eqb a b) with false
             end
         end;
  cbv beta iota.

Lemma transition_total (ws ws' : WalletService) :
  ledger_inv ws ->
  transition ws ws' ->
  totalBalance ws
  == totalDeposited (transactions ws) - totalWithdrawn (transactions ws) ->
  totalBalance ws'
  == totalDeposited (transactions ws') - totalWithdrawn (transactions ws').
Proof.
  unfold totalBalance, totalDeposited, totalWithdrawn, ofType.
  intros Hled
         [Hu Hw Ht|userID name email Hfresh Hu Hw Ht
         |userID w tx Hl _ _ _ Hty Hu Hw Ht
         |userID w tx Hl _ _ _ Hty Hu Hw Ht
         |fromUserID toUserID wf wt tx Hne Hlf Hlt _ _ _ _ Hty Hu Hw Ht] Hinv;
    rewrite Hw, Ht.
  - exact Hinv.
  - assert (Hnone : wallets ws !! userID = None).
    { apply not_elem_of_dom. rewrite <- (inv_dom ws Hled).
      apply not_elem_of_dom. exact Hfresh. }
    rewrite total_insert_new by exact Hnone. cbn [Balance].
    rewrite Hinv. change (dval (New 0 0)) with (0 * 1). ring.
  - rewrite (total_insert_old _ _ w) by exact Hl.
    rewrite !sumWhere_snoc. cbv beta. rewrite Hty. cbn [setBalance Balance].
    rewrite dval_Add, Hinv. decide_types. ring.
  - rewrite (total_insert_old _ _ w) by exact Hl.
    rewrite !sumWhere_snoc. cbv beta. rewrite Hty. cbn [setBalance Balance].
    rewrite dval_Sub, Hinv. decide_types. ring.
  - rewrite (total_insert_old _ _ wt)
      by (rewrite lookup_insert_ne by exact Hne; exact Hlt).
    rewrite (total_insert_old _ _ wf) by exact Hlf.
    rewrite !sumWhere_snoc. cbv beta. rewrite Hty. cbn [setBalance Balance].
    rewrite dval_Add, dval_Sub, Hinv. decide_types. ring.
Qed.

Lemma run_total (cs : list (Clock * call)) (ws : WalletService) :
  ledger_inv ws ->
  totalBalance ws
  == totalDeposited (transactions ws) - totalWithdrawn (transactions ws) ->
  totalBalance (run cs ws)
  == totalDeposited (transactions (run cs ws))
     - totalWithdrawn (transactions (run cs ws)).
Proof.
  revert ws. induction cs as [|[clk c] cs IH]; intros ws Hled Hinv; cbn [run].
  - exact Hinv.
  - apply IH.
    + eapply transition_inv; [exact Hled|apply exec_transition].
    + eapply transition_total; [exact Hled|apply exec_transition|exact Hinv].
Qed.

End Totals.

(** X17: money enters the service by deposits and leaves it by withdrawals
    only: after every run the sum of all balances is the sum of the
    deposits of the log minus the sum of its withdrawals; transfers do not
    change it. *)
Theorem total_balance_is_deposits_minus_withdrawals
    (cs : list (Clock * call)) :
  (totalBalance (run cs NewWalletService)
   == totalDeposited (transactions (run cs NewWalletService))
      - totalWithdrawn (transactions (run cs NewWalletService)))%Q.
Proof.
  apply run_total; [apply ledger_inv_new|].
  unfold totalBalance. cbn [NewWalletService wallets transactions].
  rewrite map_to_list_empty. reflexivity.
Qed.

(** ** Calls in sequence *)




Lemma Transfer_ok_state (fromUserID toUserID : string) (wf wt : Wallet)
    (d : Decimal) (description : string) (clk : Clock) (ws : WalletService) :
  fromUserID <> toUserID ->
  wallets ws !! fromUserID = Some wf -> wallets ws !! toUserID = Some wt ->
  (0 < dval d)%Q -> (dval d <= dval (Balance wf))%Q ->
  retval (Transfer fromUserID toUserID (Finite d) description clk ws)
  = Returns None /\
  wallets (final (Transfer fromUserID toUserID (Finite d) description clk ws))
  = <[toUserID := setBalance wt (Add (Balance wt) d)]>
      (<[fromUserID := setBalance wf (Sub (Balance wf) d)]> (wallets ws)).
Proof.
  intros Hne Hf Hto Hpos Hle. rewrite Transfer_run. cbn [NewFromFloat].
  assert (H : LessThanOrEqual d Zero = false).
  { apply LessThanOrEqual_false. rewrite dval_Zero. exact Hpos. }
  assert (H' : LessThan (Balance wf) d = false)
    by (apply LessThan_false; exact Hle).
  rewrite H. destruct (String.eqb_spec fromUserID toUserID); [contradiction|].
  rewrite Hf, Hto.
  destruct (getOrderedLocks fromUserID toUserID clk ws) as [[[l1 l2] ws1] t].
  rewrite H'. split; reflexivity.
Qed.



(** X19: a transfer can be sent back: in a state of a run, after a
    [Transfer] that returned [nil], the [Transfer] of the same amount in the
    opposite direction returns [nil] and both balances are what they were
    before the first transfer. *)
Theorem transfer_there_and_back (cs : list (Clock * call))
    (fromUserID toUserID : string) (d : Decimal)
    (description description' : string) (clk clk' : Clock) :
  let ws := run cs NewWalletService in
  let first := Transfer fromUserID toUserID (Finite d) description clk ws in
  retval first = Returns None ->
  let back := Transfer toUserID fromUserID (Finite d) description' clk'
                (final first) in
  retval back = Returns None /\
  (dval (balance (final back) fromUserID) == dval (balance ws fromUserID))%Q /\
  (dval (balance (final back) toUserID) == dval (balance ws toUserID))%Q.
Proof.
  cbv zeta. set (ws := run cs NewWalletService). intros Hret.
  assert (Hcond : exists wf wt,
    fromUserID <> toUserID /\ wallets ws !! fromUserID = Some wf /\
    wallets ws !! toUserID = Some wt /\ (0 < dval d)%Q /\
    (dval d <= dval (Balance wf))%Q).
  { revert Hret. rewrite Transfer_run. cbn [NewFromFloat].
    destruct (LessThanOrEqual d Zero) eqn:Hpos; [discriminate|].
    destruct (String.eqb_spec fromUserID toUserID); [discriminate|].
    destruct (wallets ws !! fromUserID) as [wf|]; [|discriminate].
    destruct (wallets ws !! toUserID) as [wt|]; [|discriminate].
    destruct (getOrderedLocks fromUserID toUserID clk ws) as [[[? ?] ?] ?].
    destruct (LessThan (Balance wf) d) eqn:Hlt; [discriminate|].
    intros _. exists wf, wt. apply positive_amount in Hpos.
    apply LessThan_false in Hlt. auto. }
  destruct Hcond as (wf & wt & Hne & Hf & Hto & Hpos & Hle).
  pose proof (inv_nonneg _ (run_from_new_inv cs) _ _ Hto) as Hnn.
  fold ws in Hnn.
  destruct (Transfer_ok_state fromUserID toUserID wf wt d description clk ws
              Hne Hf Hto Hpos Hle) as [_ Hst].
  set (ws1 := final (Transfer fromUserID toUserID (Finite d) description clk
                       ws)) in *.
  assert (Hto1 : wallets ws1 !! toUserID
                 = Some (setBalance wt (Add (Balance wt) d)))
    by (rewrite Hst; apply lookup_insert_eq).
  assert (Hf1 : wallets ws1 !! fromUserID
                = Some (setBalance wf (Sub (Balance wf) d))).
  { rewrite Hst, lookup_insert_ne by (intros E; apply Hne; symmetry; exact E).
    apply lookup_insert_eq. }
  destruct (Transfer_ok_state toUserID fromUserID _ _ d description' clk' ws1
              (not_eq_sym Hne) Hto1 Hf1 Hpos) as [Hret' Hst'].
  { cbn [setBalance Balance]. rewrite dval_Add. lra. }
  split; [exact Hret'|].
  rewrite !balance_lookup, Hst', Hf, Hto.
  rewrite lookup_insert_eq, lookup_insert_ne, lookup_insert_eq by exact Hne.
  cbn [setBalance Balance].
  repeat (rewrite dval_Add || rewrite dval_Sub). split; ring.
Qed.

Lemma transfer_there_and_back_witness :
  let first := Transfer "A" "B" (Finite (New 1 0)) "memo" noon demo in
  let back := Transfer "B" "A" (Finite (New 1 0)) "memo" (after 1)
                (final first) in
  retval back = Returns None /\
  (dval (balance (final back) "A") == dval (balance demo "A"))%Q /\
  (dval (balance (final back) "B") == dval (balance demo "B"))%Q.
Proof.
  apply (transfer_there_and_back demo_calls "A" "B" (New 1 0) "memo" "memo"
           noon (after 1)).
  vm_compute. reflexivity.
Defined.

(** ** Histories *)

(** X20: no entry of the log is lost to the histories: in every state of a
    run each logged transaction is returned, without error, by
    [GetTransactionHistory] of its source and by [GetTransactionHistory] of
    its destination. *)
Theorem log_entries_in_both_histories (cs : list (Clock * call))
    (clk : Clock) :
  let ws := run cs NewWalletService in
  Forall (λ tx,
            retval (GetTransactionHistory (FromUserID tx) clk ws)
            = (List.filter (involves (FromUserID tx)) (transactions ws), None)
            /\ In tx (List.filter (involves (FromUserID tx)) (transactions ws))
            /\ retval (GetTransactionHistory (ToUserID tx) clk ws)
               = (List.filter (involves (ToUserID tx)) (transactions ws), None)
            /\ In tx (List.filter (involves (ToUserID tx)) (transactions ws)))
         (transactions ws).
Proof.
  cbv zeta. pose proof (run_from_new_inv cs) as Hinv.
  apply Forall_forall. intros tx Hin. apply list_elem_of_In in Hin.
  destruct (inv_log_ids _ Hinv tx Hin) as [Hf Hto].
  rewrite <- !elem_of_dom, <- (inv_dom _ Hinv), !elem_of_dom in Hf, Hto.
  destruct Hf as [uf Hf], Hto as [ut Hto].
  rewrite !history_retval, Hf, Hto.
  repeat split; apply List.filter_In; (split; [exact Hin|]); unfold involves;
    rewrite String.eqb_refl; [reflexivity|apply Bool.orb_true_r].
Qed.

(** ** Listing the users *)

(** X21: in every state of a run [GetAllUsers] returns each registered user
    exactly once and nothing else: as many users as the map has entries, no
    id twice, and a user is listed exactly when the map holds it under its
    id; the call changes nothing. *)
Theorem GetAllUsers_lists_the_registry (cs : list (Clock * call))
    (clk : Clock) :
  let ws := run cs NewWalletService in
  let listed := retval (GetAllUsers clk ws) in
  final (GetAllUsers clk ws) = ws /\
  length listed = size (users ws) /\
  NoDup (map User_ID listed) /\
  (forall u, In u listed <-> users ws !! User_ID u = Some u).
Proof.
  cbv zeta. rewrite GetAllUsers_run. unfold retval, final; cbn [fst snd].
  destruct (run_keys cs) as [HU _].
  set (ws := run cs NewWalletService) in *.
  split; [reflexivity|]. split; [|split].
  - rewrite length_fmap. apply length_map_to_list.
  - assert (Hids : map User_ID (map_to_list (users ws)).*2
                   = (map_to_list (users ws)).*1).
    { assert (Hall : forall e, e ∈ map_to_list (users ws) ->
                               User_ID e.2 = e.1).
      { intros [k u] He. apply elem_of_map_to_list in He. exact (HU _ _ He). }
      induction (map_to_list (users ws)) as [|e es IH]; [reflexivity|].
      cbn. rewrite (Hall e) by left. f_equal. apply IH.
      intros e' He'. apply Hall. right. exact He'. }
    rewrite Hids. apply NoDup_fst_map_to_list.
  - intros u. rewrite <- list_elem_of_In, list_elem_of_fmap. split.
    + intros ([k u'] & -> & He). apply elem_of_map_to_list in He.
      cbn [snd]. rewrite (HU _ _ He). exact He.
    + intros Hu. exists (User_ID u, u). split; [reflexivity|].
      apply elem_of_map_to_list. exact Hu.
Qed.

(** ** Registration, continued *)

(** X22: an id is registered at most once: whatever the first [CreateUser]
    for an id returned, a second [CreateUser] for the same id returns
    [ErrUserAlreadyExists] and changes nothing, so the first name and email
    stay. *)
Theorem second_CreateUser_fails (userID name email name' email' : string)
    (clk clk' : Clock) (ws : WalletService) :
  let ws1 := final (CreateUser userID name email clk ws) in
  CreateUser userID name' email' clk' ws1
  = (Some ErrUserAlreadyExists, ws1, [EvLock ServiceMu; EvUnlock ServiceMu]).
Proof.
  cbv zeta. rewrite (CreateUser_run userID name email).
  destruct (users ws !! userID) as [u|] eqn:E; unfold final; cbn [fst snd];
    rewrite CreateUser_run; cbn [users].
  - rewrite E. reflexivity.
  - rewrite lookup_insert_eq. reflexivity.
Qed.




(** ** Ids that are not registered *)

(** X24: what the calls do with an id that has no wallet, for every
    [float64] amount.  On NaN and the infinities [Deposit], [Withdraw] and
    [Transfer] panic in the conversion; on a finite amount that is not
    positive they return [ErrInvalidAmount]; in both cases the whole state,
    lock table included, stays as it was.  On a finite positive amount
    [Deposit] and [Withdraw], which ask the lock manager for the user's
    mutex before they look the id up, return [ErrUserNotFound] with users,
    wallets and log unchanged, yet the lock table afterwards holds a mutex
    for the id; [Transfer], which looks both ids up first, returns
    [ErrUserNotFound] and leaves the whole state as it was. *)
Theorem unregistered_id_gets_a_mutex (userID other : string)
    (amount : float64) (description : string) (clk : Clock)
    (ws : WalletService) :
  wallets ws !! userID = None ->
  userID <> other ->
  match amount with
  | NaN | Inf _ =>
      Deposit userID amount description clk ws = (Panics, ws, []) /\
      Withdraw userID amount description clk ws = (Panics, ws, []) /\
      Transfer userID other amount description clk ws = (Panics, ws, []) /\
      Transfer other userID amount description clk ws = (Panics, ws, [])
  | Finite d =>
      ((dval d <= 0)%Q /\
       Deposit userID amount description clk ws
       = (Returns (Some ErrInvalidAmount), ws, []) /\
       Withdraw userID amount description clk ws
       = (Returns (Some ErrInvalidAmount), ws, []) /\
       Transfer userID other amount description clk ws
       = (Returns (Some ErrInvalidAmount), ws, []) /\
       Transfer other userID amount description clk ws
       = (Returns (Some ErrInvalidAmount), ws, [])) \/
      ((0 < dval d)%Q /\
       (let r := Deposit userID amount description clk ws in
        retval r = Returns (Some ErrUserNotFound) /\
        is_Some (userLocks (final r) !! userID) /\
        users (final r) = users ws /\ wallets (final r) = wallets ws /\
        transactions (final r) = transactions ws) /\
       (let r := Withdraw userID amount description clk ws in
        retval r = Returns (Some ErrUserNotFound) /\
        is_Some (userLocks (final r) !! userID) /\
        users (final r) = users ws /\ wallets (final r) = wallets ws /\
        transactions (final r) = transactions ws) /\
       Transfer userID other amount description clk ws
       = (Returns (Some ErrUserNotFound), ws,
          [EvRLock ServiceMu; EvRUnlock ServiceMu]) /\
       Transfer other userID amount description clk ws
       = (Returns (Some ErrUserNotFound), ws,
          [EvRLock ServiceMu; EvRUnlock ServiceMu]))
  end.
Proof.
  intros Hnone Hne.
  destruct amount as [| |d]; [repeat split; reflexivity..|].
  destruct (LessThanOrEqual d Zero) eqn:H.
  { left. apply LessThanOrEqual_spec in H. rewrite dval_Zero in H.
    split; [exact H|].
    assert (H' : LessThanOrEqual d Zero = true)
      by (apply LessThanOrEqual_spec; rewrite dval_Zero; exact H).
    rewrite Deposit_run, Withdraw_run, !Transfer_run. cbn [NewFromFloat].
    unfold DepositDecimal. rewrite H'. repeat split; reflexivity. }
  right. split; [apply positive_amount, H|].
  pose proof (getLock_lookup userID clk ws) as Hl.
  split; [|split; [|split]].
  - cbv zeta. rewrite Deposit_run. cbn [NewFromFloat].
    rewrite DepositDecimal_run, H. name_getLock userID clk ws lock ws1.
    rewrite Hnone. unfold retval, final in *; cbn [fst snd] in *. eauto 6.
  - cbv zeta. rewrite Withdraw_run. cbn [NewFromFloat].
    rewrite H. name_getLock userID clk ws lock ws1. rewrite Hnone.
    unfold retval, final in *; cbn [fst snd] in *. eauto 6.
  - rewrite Transfer_run. cbn [NewFromFloat]. rewrite H.
    destruct (String.eqb_spec userID other); [contradiction|].
    rewrite Hnone. reflexivity.
  - rewrite Transfer_run. cbn [NewFromFloat]. rewrite H.
    destruct (String.eqb_spec other userID) as [E|_];
      [symmetry in E; contradiction|].
    rewrite Hnone. destruct (wallets ws !! other); reflexivity.
Qed.

Lemma unregistered_id_gets_a_mutex_witness :
  ((let r := Deposit "nobody" (Finite (New 1 0)) "memo" noon demo in
    retval r = Returns (Some ErrUserNotFound) /\
    is_Some (userLocks (final r) !! "nobody")) /\
   (let r := Withdraw "nobody" (Finite (New 1 0)) "memo" noon demo in
    retval r = Returns (Some ErrUserNotFound) /\
    is_Some (userLocks (final r) !! "nobody")) /\
   Transfer "A" "nobody" (Finite (New 1 0)) "memo" noon demo
   = (Returns (Some ErrUserNotFound), demo,
      [EvRLock ServiceMu; EvRUnlock ServiceMu])) /\
  (Deposit "nobody" (Inf false) "memo" noon demo = (Panics, demo, []) /\
   Withdraw "nobody" (Inf false) "memo" noon demo = (Panics, demo, [])).
Proof.
  assert (Hnone : wallets demo !! "nobody" = None)
    by (vm_compute; reflexivity).
  assert (Hne : "nobody" <> "A") by discriminate.
  split.
  - destruct (unregistered_id_gets_a_mutex "nobody" "A" (Finite (New 1 0))
                "memo" noon demo Hnone Hne)
      as [(Hle & _)|(_ & HD & HW & _ & HT)].
    + exfalso. revert Hle. vm_compute. intros Hle. apply Hle. reflexivity.
    + destruct HD as (HD1 & HD2 & _), HW as (HW1 & HW2 & _). auto.
  - destruct (unregistered_id_gets_a_mutex "nobody" "A" (Inf false)
                "memo" noon demo Hnone Hne) as (HD & HW & _).
    auto.
Defined.

Example demo_has_no_mutex_for_nobody : userLocks demo !! "nobody" = None.
Proof. vm_compute. reflexivity. Qed.

(** ** Transaction ids, continued *)

(** X26: the ids of the log are pairwise different whenever no two calls of
    the run read the same nanosecond from the clock: [generateTransactionID]
    maps different readings to different ids, and each call logs at most one
    transaction. *)
Theorem ids_unique_under_distinct_clocks (cs : list (Clock * call)) :
  NoDup (map (λ p, UnixNano p.1) cs) ->
  NoDup (map ID (transactions (run cs NewWalletService))).
Proof.
  intros Hclk. apply run_ids_distinct; [exact Hclk|constructor|].
  intros clk c _ Hin. cbn in Hin. destruct Hin.
Qed.

Lemma ids_unique_under_distinct_clocks_witness :
  NoDup (map ID (transactions (run demo_calls NewWalletService))).
Proof.
  apply (ids_unique_under_distinct_clocks demo_calls).
  apply (bool_decide_unpack _). vm_compute. reflexivity.
Defined.
